(** * Model building notebook (2b_model_building): a shallow embedding

    The notebook loads a labelled feature table, assembles the feature
    columns into one vector column, fits a VectorIndexer and a
    StringIndexer on the whole table, chooses a tree classifier from the
    [model] widget, fits the three-stage pipeline and saves it on DBFS.

    The notebook's own statements are embedded as they are written.  The
    Spark operations it calls ([select], [VectorAssembler.transform],
    [VectorIndexer.fit], [StringIndexer.fit], [Pipeline.fit],
    [MLWriter.save]) are embedded by their documented behaviour; the
    tree learners themselves are a parameter. *)

From Stdlib Require Import QArith Qcanon.
From stdpp Require Import base strings list sorting numbers gmap.

Local Open Scope list_scope.

(** ** Cells, schemas and data frames *)

(** Spark SQL column types that occur in the feature table. *)
Inductive dtype := IntegerType | DoubleType | TimestampType | StringType | VectorType.

(** One value of a row.  Numbers are exact rationals; the development only
    compares cell values for equality.  Null cells are not modelled. *)
Inductive cell :=
| CNum (x : Qc)
| CTime (t : Z)
| CStr (s : string)
| CVec (v : list Qc).

#[global] Instance dtype_eq_dec : EqDecision dtype.
Proof. solve_decision. Defined.

#[global] Instance cell_eq_dec : EqDecision cell.
Proof. solve_decision. Defined.

#[global] Instance Qc_inhabited : Inhabited Qc := populate 0%Qc.

#[global] Instance dtype_inhabited : Inhabited dtype := populate DoubleType.

#[global] Instance cell_inhabited : Inhabited cell := populate (CNum 0%Qc).

Record DataFrame := mkDataFrame {
  schema : list (string * dtype);
  rows : list (list cell)
}.

(** [df.columns] *)
Definition columns (df : DataFrame) : list string := (schema df).*1.

(** Every row has one cell per column. *)
Definition well_formed (df : DataFrame) : Prop :=
  Forall (λ r, length r = length (schema df)) (rows df).

(** ** Exceptions *)

Inductive error :=
| AnalysisException (msg : string)
| IllegalArgumentException (msg : string)
| IOException (msg : string)
| SparkException (msg : string).

Inductive result (A : Type) :=
| Ok (a : A)
| Raise (e : error).
Arguments Ok {A} a.
Arguments Raise {A} e.

#[global] Instance result_ret : MRet result := @Ok.
#[global] Instance result_bind : MBind result := λ A B f r,
  match r with
  | Ok a => f a
  | Raise e => Raise e
  end.

Fixpoint rmapM {A B} (f : A → result B) (l : list A) : result (list B) :=
  match l with
  | [] => Ok []
  | a :: l' => b ← f a; bs ← rmapM f l'; Ok (b :: bs)
  end.

Definition is_ok {A} (r : result A) : bool :=
  match r with Ok _ => true | Raise _ => false end.

(** ** Column resolution and [select] *)

(** Positions at which a column name occurs in a schema. *)
Definition positions (name : string) (cols : list string) : list nat :=
  (filter (λ p, p.2 = name) (imap pair cols)).*1.

(** Spark resolves a name against the schema: an unknown name and an
    ambiguous one are both analysis errors.  Names are matched exactly
    here, as with [spark.sql.caseSensitive = true]; Spark's default also
    takes a name that differs from a column's in case only, and reads a dot
    in a name as field access.  What is proved below of a missing column is
    stated for a column that is absent in either sense ([absent]). *)
Definition resolve (cols : list string) (name : string) : result nat :=
  match positions name cols with
  | [i] => Ok i
  | [] => Raise (AnalysisException ("cannot resolve " +:+ name))
  | _ => Raise (AnalysisException ("ambiguous reference " +:+ name))
  end.

(** [df.select(names)] *)
Definition select (names : list string) (df : DataFrame) : result DataFrame :=
  idxs ← rmapM (resolve (columns df)) names ;
  Ok {| schema := (λ i, schema df !!! i) <$> idxs;
        rows := (λ r, (λ i, r !!! i) <$> idxs) <$> rows df |}.

(** The cell of row [r] under column [name]. *)
Definition cell_at (df : DataFrame) (r : list cell) (name : string) : option cell :=
  match resolve (columns df) name with
  | Ok i => r !! i
  | Raise _ => None
  end.

(** ** Cell 4: the list of input columns *)

Definition label_var : list string := ["label_e"].
Definition key_cols : list string := ["machineID"; "dt_truncated"].
Definition remove_names : list string :=
  label_var ++ key_cols ++ ["failure"; "model_encoded"; "model"].

(** [[x for x in train_data.columns if x not in set(remove_names)]] *)
Definition input_features (train_data : DataFrame) : list string :=
  filter (λ x, x ∉ remove_names) (columns train_data).

(** ** VectorAssembler *)

(** What [VectorAssembler.transform] does with an empty [inputCols] is
    decided inside Spark (the struct of input columns is rejected by some
    releases and accepted by others); the notebook does not check the list
    itself, so the behaviour is a parameter of the run. *)
Inductive EmptyInputCols := RejectEmptyInputCols | AcceptEmptyInputCols.

Record VectorAssembler := mkVectorAssembler {
  va_inputCols : list string;
  va_outputCol : string
}.

(** The assembler takes numeric and vector columns only. *)
Definition assemblable (t : dtype) : bool :=
  match t with
  | IntegerType | DoubleType | VectorType => true
  | TimestampType | StringType => false
  end.

Definition cell_values (c : cell) : list Qc :=
  match c with
  | CNum x => [x]
  | CVec v => v
  | CTime _ | CStr _ => []
  end.

Definition va_resolve (df : DataFrame) (name : string) : result nat :=
  i ← resolve (columns df) name;
  if assemblable (schema df !!! i).2 then Ok i
  else Raise (IllegalArgumentException ("Data type of column " +:+ name +:+ " is not supported.")).

(** [va.transform(df)]: the schema is checked first (every input column
    must exist and be numeric or a vector, the output column must be new),
    then every row gets the concatenation of its input cells, in the order
    of [inputCols], as one more column. *)
Definition VectorAssembler_transform (empty : EmptyInputCols) (va : VectorAssembler)
    (df : DataFrame) : result DataFrame :=
  idxs ← rmapM (va_resolve df) (va_inputCols va);
  if bool_decide (va_outputCol va ∈ columns df) then
    Raise (IllegalArgumentException ("Output column " +:+ va_outputCol va +:+ " already exists."))
  else
    match idxs, empty with
    | [], RejectEmptyInputCols =>
        Raise (AnalysisException "input to function named_struct requires at least one argument")
    | _, _ =>
        Ok {| schema := schema df ++ [(va_outputCol va, VectorType)];
              rows := (λ r, r ++ [CVec (concat ((λ i, cell_values (r !!! i)) <$> idxs))]) <$> rows df |}
    end.

(** ** VectorIndexer *)

Record VectorIndexer := mkVectorIndexer {
  vi_inputCol : string;
  vi_outputCol : string;
  maxCategories : nat
}.

(** The fitted indexer: for every categorical feature, its values in index
    order; features without an entry are continuous. *)
Record VectorIndexerModel := mkVectorIndexerModel {
  vim_inputCol : string;
  vim_outputCol : string;
  numFeatures : nat;
  categoryMaps : gmap nat (list Qc)
}.

(** The vectors of a column. *)
Definition vector_column (i : nat) (df : DataFrame) : list (list Qc) :=
  (λ r, cell_values (r !!! i)) <$> rows df.

(** The distinct values feature [j] takes over the vectors. *)
Definition distinct_values (vs : list (list Qc)) (j : nat) : list Qc :=
  remove_dups ((λ v, v !!! j) <$> vs).

(** Category order: zero first when present, the rest ascending. *)
Definition category_order (vals : list Qc) : list Qc :=
  (if bool_decide (0%Qc ∈ vals) then [0%Qc] else [])
    ++ merge_sort Qcle (filter (λ x, x ≠ 0%Qc) vals).

Definition categorical (maxCat : nat) (vals : list Qc) : option (list Qc) :=
  if decide (length vals ≤ maxCat) then Some (category_order vals) else None.

(** [VectorIndexer(...).fit(df)].  The number of features is read off the
    first vector, so a dataset without rows is refused (Spark 2.x; later
    releases take the size from the column's metadata and return a model
    there, and the run then stops in the learner). *)
Definition VectorIndexer_fit (vi : VectorIndexer) (df : DataFrame) : result VectorIndexerModel :=
  i ← resolve (columns df) (vi_inputCol vi);
  match vector_column i df with
  | [] => Raise (IllegalArgumentException "VectorIndexer cannot be fit on an empty dataset.")
  | v0 :: vs =>
      let n := length v0 in
      if bool_decide (Forall (λ v, length v = n) vs) then
        Ok {| vim_inputCol := vi_inputCol vi;
              vim_outputCol := vi_outputCol vi;
              numFeatures := n;
              categoryMaps :=
                omap (categorical (maxCategories vi))
                     (map_seq 0 (distinct_values (v0 :: vs) <$> seq 0 n)) |}
      else Raise (SparkException "VectorIndexer expected vectors of one size")
  end.

(** Position of a value in an index. *)
Definition index_of `{EqDecision A} (x : A) (l : list A) : option nat :=
  fst <$> list_find (λ y, y = x) l.

Definition index_cell (i : nat) : cell := CNum (Qc_of_Z (Z.of_nat i)).

(** One feature of one vector under the fitted indexer. *)
Definition index_feature (m : VectorIndexerModel) (j : nat) (x : Qc) : result Qc :=
  match categoryMaps m !! j with
  | None => Ok x
  | Some cats =>
      match index_of x cats with
      | Some k => Ok (Qc_of_Z (Z.of_nat k))
      | None => Raise (SparkException "VectorIndexer encountered invalid value")
      end
  end.

Definition index_vector (m : VectorIndexerModel) (v : list Qc) : result (list Qc) :=
  if decide (length v = numFeatures m) then
    rmapM (λ p, index_feature m p.1 p.2) (imap pair v)
  else Raise (SparkException "VectorIndexerModel expected vector of other size").

(** [featureIndexer.transform(df)] *)
Definition VectorIndexerModel_transform (m : VectorIndexerModel) (df : DataFrame)
    : result DataFrame :=
  i ← resolve (columns df) (vim_inputCol m);
  vs ← rmapM (index_vector m) (vector_column i df);
  Ok {| schema := schema df ++ [(vim_outputCol m, VectorType)];
        rows := zip_with (λ r v, r ++ [CVec v]) (rows df) vs |}.

(** ** Classifiers (cell 6) *)

Record TreeParams := mkTreeParams {
  labelCol : string;
  featuresCol : string;
  maxDepth : Z;
  maxBins : Z;
  minInstancesPerNode : Z;
  minInfoGain : Q;
  impurity : string
}.

Record ForestParams := mkForestParams {
  numTrees : Z;
  featureSubsetStrategy : string;
  subsamplingRate : Q
}.

Inductive Classifier :=
| DecisionTreeClassifier (p : TreeParams)
| RandomForestClassifier (p : TreeParams) (f : ForestParams).

Definition tree_params (c : Classifier) : TreeParams :=
  match c with
  | DecisionTreeClassifier p => p
  | RandomForestClassifier p _ => p
  end.

Definition forest_params (c : Classifier) : option ForestParams :=
  match c with
  | DecisionTreeClassifier _ => None
  | RandomForestClassifier _ f => Some f
  end.

(** The [if model_type == 'DecisionTree': ... else: ...] of cell 6. *)
Definition select_model (model_type : string) : Classifier :=
  if String.eqb model_type "DecisionTree" then
    DecisionTreeClassifier
      {| labelCol := "indexedLabel"; featuresCol := "indexedFeatures";
         maxDepth := 15; maxBins := 32; minInstancesPerNode := 1;
         minInfoGain := 0.0; impurity := "gini" |}
  else
    RandomForestClassifier
      {| labelCol := "indexedLabel"; featuresCol := "indexedFeatures";
         maxDepth := 15; maxBins := 32; minInstancesPerNode := 1;
         minInfoGain := 0.0; impurity := "gini" |}
      {| numTrees := 200; featureSubsetStrategy := "sqrt";
         subsamplingRate := 0.632 |}.

(** The tokens the notebook names for its two models. *)
Definition recognized (model_type : string) : Prop :=
  model_type = "DecisionTree" ∨ model_type = "RandomForest".

(** The random forest with the hyperparameters written in cell 6. *)
Definition default_forest : Classifier :=
  RandomForestClassifier
    {| labelCol := "indexedLabel"; featuresCol := "indexedFeatures";
       maxDepth := 15; maxBins := 32; minInstancesPerNode := 1;
       minInfoGain := 0.0; impurity := "gini" |}
    {| numTrees := 200; featureSubsetStrategy := "sqrt"; subsamplingRate := 0.632 |}.

(** The ranges the parameter comments of cell 6 give; Spark's setters
    raise outside of them. *)
Definition tree_params_valid (p : TreeParams) : bool :=
  bool_decide (0 ≤ maxDepth p)%Z && bool_decide (2 ≤ maxBins p)%Z
  && bool_decide (1 ≤ minInstancesPerNode p)%Z
  && Qle_bool 0 (minInfoGain p)
  && bool_decide (impurity p ∈ ["entropy"; "gini"]).

Definition forest_params_valid (f : ForestParams) : bool :=
  bool_decide (1 ≤ numTrees f)%Z
  && bool_decide (featureSubsetStrategy f ∈ ["auto"; "all"; "onethird"; "sqrt"; "log2"])
  && negb (Qle_bool (subsamplingRate f) 0) && Qle_bool (subsamplingRate f) 1.

Definition params_valid (c : Classifier) : bool :=
  match c with
  | DecisionTreeClassifier p => tree_params_valid p
  | RandomForestClassifier p f => tree_params_valid p && forest_params_valid f
  end.

(** ** StringIndexer, Pipeline and the notebook *)

Record StringIndexer := mkStringIndexer {
  si_inputCol : string;
  si_outputCol : string
}.

(** The fitted label indexer: the label at position [i] has index [i]. *)
Record StringIndexerModel := mkStringIndexerModel {
  sim_inputCol : string;
  sim_outputCol : string;
  labels : list cell
}.

(** The instances a tree learner sees: label and feature vector. *)
Record LabeledPoint := mkLabeledPoint {
  lp_label : Qc;
  lp_features : list Qc
}.

(** Which estimator a [fit] call belongs to. *)
Inductive estimator := VectorIndexerFit | StringIndexerFit | PipelineFit.

(** What a run does that can be observed from outside: the [fit] calls,
    each with the dataset it is given, and the saves. *)
Inductive event :=
| Fit (e : estimator) (on : DataFrame)
| Save (path : string).

Definition is_fit (ev : event) : bool :=
  match ev with Fit _ _ => true | Save _ => false end.

(** Job parameters override a widget's default text. *)
Definition widgets_get (params : gmap string string) (name default_text : string) : string :=
  default default_text (params !! name).

Definition spark_table (catalog : gmap string DataFrame) (name : string) : result DataFrame :=
  match catalog !! name with
  | Some df => Ok df
  | None => Raise (AnalysisException ("Table or view not found: " +:+ name))
  end.

(** Cell 1. *)
Definition training_table : string := "training_data".
Definition model_type_default : string := "RandomForest".

Section Notebook.

(** The order in which [StringIndexer] puts labels of equal frequency:
    a fixed order on label values (alphabetical in recent releases). *)
Context (tie_le : relation cell) `{!RelDecision tie_le}.

(** The tree learners: what [fit] returns for a classifier on a list of
    instances, and how a fitted classifier transforms a dataset. *)
Context {Model : Type}.
Context (train : Classifier → list LabeledPoint → result Model).
Context (predict : Model → DataFrame → result DataFrame).

(** How this Spark treats an assembler without input columns. *)
Context (empty : EmptyInputCols).

(** *** StringIndexer *)

Definition frequency (col : list cell) (x : cell) : nat :=
  length (filter (λ y, y = x) col).

(** [a] is indexed before [b]: more frequent first, ties by [tie_le]. *)
Definition before (col : list cell) (a b : cell) : Prop :=
  frequency col b < frequency col a
  ∨ (frequency col a = frequency col b ∧ tie_le a b).

#[global] Instance before_dec col : RelDecision (before col).
Proof. intros a b. unfold before. apply _. Defined.

Definition cell_column (i : nat) (df : DataFrame) : list cell :=
  (λ r, r !!! i) <$> rows df.

Definition index_labels (col : list cell) : list cell :=
  merge_sort (before col) (remove_dups col).

(** [StringIndexer(...).fit(df)] *)
Definition StringIndexer_fit (si : StringIndexer) (df : DataFrame)
    : result StringIndexerModel :=
  i ← resolve (columns df) (si_inputCol si);
  Ok {| sim_inputCol := si_inputCol si;
        sim_outputCol := si_outputCol si;
        labels := index_labels (cell_column i df) |}.

Definition index_label (m : StringIndexerModel) (c : cell) : result cell :=
  match index_of c (labels m) with
  | Some k => Ok (index_cell k)
  | None => Raise (SparkException "Unseen label")
  end.

(** [labelIndexer.transform(df)] *)
Definition StringIndexerModel_transform (m : StringIndexerModel) (df : DataFrame)
    : result DataFrame :=
  i ← resolve (columns df) (sim_inputCol m);
  ls ← rmapM (index_label m) (cell_column i df);
  Ok {| schema := schema df ++ [(sim_outputCol m, DoubleType)];
        rows := zip_with (λ r l, r ++ [l]) (rows df) ls |}.

(** *** Pipeline *)

Inductive Transformer :=
| TStringIndexerModel (m : StringIndexerModel)
| TVectorIndexerModel (m : VectorIndexerModel)
| TClassificationModel (c : Classifier) (m : Model).

Inductive PipelineStage :=
| TransformerStage (t : Transformer)
| EstimatorStage (c : Classifier).

(** A fitted pipeline. *)
Definition PipelineModel : Type := list Transformer.

Definition Transformer_transform (t : Transformer) (df : DataFrame) : result DataFrame :=
  match t with
  | TStringIndexerModel m => StringIndexerModel_transform m df
  | TVectorIndexerModel m => VectorIndexerModel_transform m df
  | TClassificationModel _ m => predict m df
  end.

Definition labeled_point (l f : cell) : result LabeledPoint :=
  match l, f with
  | CNum y, CVec v => Ok {| lp_label := y; lp_features := v |}
  | _, _ => Raise (IllegalArgumentException "label must be numeric, features a vector")
  end.

(** The instances a classifier reads from its label and feature columns. *)
Definition training_instances (c : Classifier) (df : DataFrame) : result (list LabeledPoint) :=
  il ← resolve (columns df) (labelCol (tree_params c));
  iv ← resolve (columns df) (featuresCol (tree_params c));
  rmapM (λ r, labeled_point (r !!! il) (r !!! iv)) (rows df).

(** [classifier.fit(df)] *)
Definition Classifier_fit (c : Classifier) (df : DataFrame) : result Transformer :=
  if params_valid c then
    pts ← training_instances c df;
    m ← train c pts;
    Ok (TClassificationModel c m)
  else Raise (IllegalArgumentException "parameter given invalid value").

Definition is_estimator (s : PipelineStage) : bool :=
  match s with EstimatorStage _ => true | TransformerStage _ => false end.

(** [Pipeline(stages).fit(df)]: estimators are fit on the dataset as
    transformed by the stages before them; the dataset is transformed
    only up to the last estimator. *)
Fixpoint Pipeline_fit (stages : list PipelineStage) (df : DataFrame) : result PipelineModel :=
  match stages with
  | [] => Ok []
  | s :: rest =>
      t ← match s with
          | EstimatorStage c => Classifier_fit c df
          | TransformerStage t => Ok t
          end;
      df' ← (if existsb is_estimator rest then Transformer_transform t df else Ok df);
      ts ← Pipeline_fit rest df';
      Ok (t :: ts)
  end.

(** *** The run: state and effects *)

Record State := mkState {
  dbfs : gmap string PipelineModel;
  trace : list event
}.

Definition NB (A : Type) : Type := State → State * result A.

#[global] Instance NB_ret : MRet NB := λ A a s, (s, Ok a).
#[global] Instance NB_bind : MBind NB := λ A B f m s,
  match m s with
  | (s', Ok a) => f a s'
  | (s', Raise e) => (s', Raise e)
  end.

Definition lift {A} (r : result A) : NB A := λ s, (s, r).

Definition emit (ev : event) : NB () := λ s,
  ({| dbfs := dbfs s; trace := trace s ++ [ev] |}, Ok ()).

(** [model.write().overwrite().save(path)] with [overwrite = true];
    without [overwrite()] an existing path is an error.  The store maps a
    path, as a string, to the artifact saved under it, and the write
    itself is taken to succeed: a storage failure during the save, and
    paths that lie inside one another, are outside this model. *)
Definition MLWriter_save (overwrite : bool) (path : string) (m : PipelineModel) : NB () := λ s,
  let s' := {| dbfs := dbfs s; trace := trace s ++ [Save path] |} in
  match dbfs s !! path with
  | Some _ =>
      if overwrite then
        ({| dbfs := <[path := m]> (delete path (dbfs s')); trace := trace s' |}, Ok ())
      else (s, Raise (IOException ("Path " +:+ path +:+ " already exists.")))
  | None => ({| dbfs := <[path := m]> (dbfs s'); trace := trace s' |}, Ok ())
  end.

(** *** The cells *)

(** Cell 5, first statement: assemble, then keep four columns. *)
Definition assemble_features (train_data : DataFrame) : result DataFrame :=
  let va := {| va_inputCols := input_features train_data; va_outputCol := "features" |} in
  assembled ← VectorAssembler_transform empty va train_data;
  select ["machineID"; "dt_truncated"; "label_e"; "features"] assembled.

Definition model_path (model_type : string) : string :=
  "dbfs:/storage/models/" +:+ model_type +:+ ".pqt".

(** Cell 7. *)
Definition save_model (model_type : string) (model_pipeline : PipelineModel) : NB () :=
  MLWriter_save true (model_path model_type) model_pipeline.

(** Cell 5: the two indexers, before [fit]. *)
Definition featureIndexer_estimator : VectorIndexer :=
  {| vi_inputCol := "features"; vi_outputCol := "indexedFeatures"; maxCategories := 10 |}.

Definition labelIndexer_estimator : StringIndexer :=
  {| si_inputCol := "label_e"; si_outputCol := "indexedLabel" |}.

(** Cell 6: [Pipeline(stages=[labelIndexer, featureIndexer, model])]. *)
Definition pipeline_cls_mthd (labelIndexer : StringIndexerModel)
    (featureIndexer : VectorIndexerModel) (model : Classifier) : list PipelineStage :=
  [TransformerStage (TStringIndexerModel labelIndexer);
   TransformerStage (TVectorIndexerModel featureIndexer);
   EstimatorStage model].

(** The whole notebook, cells 3 to 7.  Every [fit] is logged with the
    dataset it is called on, before it runs. *)
Definition notebook (params : gmap string string) (catalog : gmap string DataFrame)
    : NB PipelineModel :=
  train_data ← lift (spark_table catalog (widgets_get params "training_table" training_table));
  train_data ← lift (assemble_features train_data);
  _ ← emit (Fit VectorIndexerFit train_data);
  featureIndexer ← lift (VectorIndexer_fit featureIndexer_estimator train_data);
  _ ← emit (Fit StringIndexerFit train_data);
  labelIndexer ← lift (StringIndexer_fit labelIndexer_estimator train_data);
  let training := train_data in
  let model_type := widgets_get params "model" model_type_default in
  let model := select_model model_type in
  _ ← emit (Fit PipelineFit training);
  model_pipeline ← lift (Pipeline_fit (pipeline_cls_mthd labelIndexer featureIndexer model) training);
  _ ← save_model model_type model_pipeline;
  mret model_pipeline.

(** The value of [training] when cell 5 has run. *)
Definition training (params : gmap string string) (catalog : gmap string DataFrame)
    : result DataFrame :=
  train_data ← spark_table catalog (widgets_get params "training_table" training_table);
  assemble_features train_data.

End Notebook.

(** Cells 3 to 6 as one result: the pipeline that cell 7 is about to
    save, or the error that stops the run before cell 7. *)
Definition fitted_pipeline {Model : Type} (tie_le : relation cell) `{!RelDecision tie_le}
    (train : Classifier → list LabeledPoint → result Model)
    (predict : Model → DataFrame → result DataFrame) (empty : EmptyInputCols)
    (params : gmap string string) (catalog : gmap string DataFrame)
    : result (PipelineModel (Model := Model)) :=
  d ← training empty params catalog;
  fi ← VectorIndexer_fit featureIndexer_estimator d;
  li ← StringIndexer_fit tie_le labelIndexer_estimator d;
  Pipeline_fit train predict
    (pipeline_cls_mthd li fi (select_model (widgets_get params "model" model_type_default))) d.

(** ** Names and tokens *)





(** The character '/' (code 47). *)
Definition slash : Ascii.ascii := Ascii.ascii_of_N 47.

(** A token that is one path component: it has no slash in it. *)
Definition one_component (token : string) : Prop :=
  slash ∉ String.list_ascii_of_string token.

(** ** The split policy the notebook's text describes *)

(** Seven days, in the seconds of [dt_truncated]. *)
Definition censoring_window : Z := 7 * 86400.

Definition timestamp_of (df : DataFrame) (r : list cell) : option Z :=
  match cell_at df r "dt_truncated" with
  | Some (CTime t) => Some t
  | _ => None
  end.

(** No row of [df] later than the cutoff. *)
Definition up_to_cutoff (T : Z) (df : DataFrame) : Prop :=
  ∀ r t, r ∈ rows df → timestamp_of df r = Some t → (t ≤ T)%Z.

(** No row of [df] in the window before the cutoff has a failure label. *)
Definition censored (window T : Z) (no_failure : cell) (df : DataFrame) : Prop :=
  ∀ r t l, r ∈ rows df → timestamp_of df r = Some t →
    (T - window < t ≤ T)%Z → cell_at df r "label_e" = Some l → l = no_failure.

(** ** A small feature table and a trivial learner, for the examples *)

Definition num (z : Z) : cell := CNum (Qc_of_Z z).

Definition toy_table : DataFrame :=
  {| schema := [("machineID", IntegerType); ("dt_truncated", TimestampType);
                ("volt", DoubleType); ("failure", StringType); ("label_e", DoubleType)];
     rows := [ [num 1; CTime 0; num 170; CStr "none"; num 0];
               [num 1; CTime 86400; num 171; CStr "comp1"; num 1];
               [num 2; CTime 172800; num 170; CStr "none"; num 0] ] |}.


(** What cell 5 makes of the toy table. *)
Definition toy_training : DataFrame :=
  {| schema := [("machineID", IntegerType); ("dt_truncated", TimestampType);
                ("label_e", DoubleType); ("features", VectorType)];
     rows := [ [num 1; CTime 0; num 0; CVec [Qc_of_Z 170]];
               [num 1; CTime 86400; num 1; CVec [Qc_of_Z 171]];
               [num 2; CTime 172800; num 0; CVec [Qc_of_Z 170]] ] |}.



Definition toy_catalog (df : DataFrame) : gmap string DataFrame := {[ "training_data" := df ]}.

(** A learner that only counts its instances. *)
Definition toy_train (c : Classifier) (pts : list LabeledPoint) : result nat := Ok (length pts).
Definition toy_predict (m : nat) (df : DataFrame) : result DataFrame := Ok df.

(** A fixed order on cells: the order of their codes. *)
Definition cell_to_sum (c : cell) : Qc + Z + string + list Qc :=
  match c with
  | CNum x => inl (inl (inl x))
  | CTime t => inl (inl (inr t))
  | CStr s => inl (inr s)
  | CVec v => inr v
  end.

Definition sum_to_cell (s : Qc + Z + string + list Qc) : cell :=
  match s with
  | inl (inl (inl x)) => CNum x
  | inl (inl (inr t)) => CTime t
  | inl (inr s) => CStr s
  | inr v => CVec v
  end.

#[global] Instance cell_countable : Countable cell.
Proof. apply (inj_countable' cell_to_sum sum_to_cell). by intros []. Defined.

Definition code_le (a b : cell) : Prop := (encode a ≤ encode b)%positive.

#[global] Instance code_le_dec : RelDecision code_le.
Proof. intros a b. unfold code_le. apply _. Defined.

Definition initial_state : State (Model := nat) := {| dbfs := ∅; trace := [] |}.

(** The notebook on the toy table, with default widgets and an empty DBFS. *)
Definition toy_run : State (Model := nat) * result (PipelineModel (Model := nat)) :=
  notebook code_le toy_train toy_predict RejectEmptyInputCols ∅ (toy_catalog toy_table)
    initial_state.

(** The pipeline that run returns. *)
Definition toy_pipeline : PipelineModel (Model := nat) :=
  match toy_run.2 with
  | Ok mp => mp
  | Raise _ => []
  end.

(** A learner that always raises. *)
Definition failing_train (c : Classifier) (pts : list LabeledPoint) : result nat :=
  Raise (SparkException "learner failed").

(** The notebook on the toy table with the failing learner. *)
Definition failing_run : State (Model := nat) * result (PipelineModel (Model := nat)) :=
  notebook code_le failing_train toy_predict RejectEmptyInputCols ∅ (toy_catalog toy_table)
    initial_state.


(** A table with a string column that is not in the exclusion list. *)
Definition notes_table : DataFrame :=
  {| schema := [("machineID", IntegerType); ("dt_truncated", TimestampType);
                ("notes", StringType); ("label_e", DoubleType)];
     rows := [ [num 1; CTime 0; CStr "ok"; num 0] ] |}.

(** A table that already has a column named features. *)
Definition features_table : DataFrame :=
  {| schema := [("machineID", IntegerType); ("dt_truncated", TimestampType);
                ("features", DoubleType); ("label_e", DoubleType)];
     rows := [ [num 1; CTime 0; num 170; num 0] ] |}.

(** * Properties *)

(** ** Results, column resolution and [select] *)

Lemma rmapM_Ok {A B} (f : A → result B) l l' :
  rmapM f l = Ok l' → Forall2 (λ a b, f a = Ok b) l l'.
Proof.
  revert l'. induction l as [|a l IH]; intros l' H; simpl in H.
  - injection H as <-. constructor.
  - destruct (f a) as [b|e] eqn:Hb; simpl in H; [|done].
    destruct (rmapM f l) as [bs|e] eqn:Hbs; simpl in H; [|done].
    injection H as <-. constructor; auto.
Qed.

Lemma elem_of_positions name cols i :
  i ∈ positions name cols ↔ cols !! i = Some name.
Proof.
  unfold positions. rewrite list_elem_of_fmap. split.
  - intros [[j x] [-> [Hx Hin]%list_elem_of_filter]]. simpl in *. subst x.
    apply elem_of_lookup_imap in Hin as (k & y & Heq & Hk). by injection Heq as -> ->.
  - intros H. exists (i, name). split; [done|].
    apply list_elem_of_filter. split; [done|]. apply elem_of_lookup_imap. eauto.
Qed.

Lemma positions_snoc name cols x :
  positions name (cols ++ [x]) =
  positions name cols ++ (if decide (x = name) then [length cols] else []).
Proof.
  unfold positions. rewrite imap_app, list.filter_app, fmap_app. f_equal.
  simpl. rewrite filter_cons. simpl. case_decide; simpl; [|done].
  by rewrite Nat.add_0_r.
Qed.

Lemma resolve_Ok cols name i : resolve cols name = Ok i → cols !! i = Some name.
Proof.
  unfold resolve. destruct (positions name cols) as [|j [|??]] eqn:Hp; [done| |done].
  intros [= ->]. apply elem_of_positions. rewrite Hp. by left.
Qed.

Lemma resolve_lt cols name i : resolve cols name = Ok i → i < length cols.
Proof. intros H%resolve_Ok. by eapply lookup_lt_Some. Qed.

Lemma resolve_missing cols name : name ∉ cols → is_ok (resolve cols name) = false.
Proof.
  intros Hn. unfold resolve.
  destruct (positions name cols) as [|j [|??]] eqn:Hp; [done| |done].
  exfalso. apply Hn, list_elem_of_lookup. exists j. apply elem_of_positions.
  rewrite Hp. by left.
Qed.

Lemma resolve_snoc_ne cols name x :
  x ≠ name → resolve (cols ++ [x]) name = resolve cols name.
Proof.
  intros Hne. unfold resolve. rewrite positions_snoc, decide_False by done.
  by rewrite app_nil_r.
Qed.

Lemma resolve_snoc_new cols name i :
  name ∉ cols → resolve (cols ++ [name]) name = Ok i → i = length cols.
Proof.
  intros Hn. unfold resolve. rewrite positions_snoc, decide_True by done.
  destruct (positions name cols) as [|j l] eqn:Hp.
  - simpl. by intros [= <-].
  - exfalso. apply Hn, list_elem_of_lookup. exists j. apply elem_of_positions.
    rewrite Hp. by left.
Qed.

Lemma schema_lookup_total df name i :
  resolve (columns df) name = Ok i → (schema df !!! i).1 = name.
Proof.
  intros H%resolve_Ok. unfold columns in H. rewrite list_lookup_fmap in H.
  destruct (schema df !! i) as [p|] eqn:Hp; [|done].
  rewrite (list_lookup_total_correct _ _ _ Hp). by injection H.
Qed.

(** A well-formed row has a cell under every resolvable column. *)
Lemma cell_at_resolved df r name i :
  length r = length (schema df) → resolve (columns df) name = Ok i →
  cell_at df r name = Some (r !!! i).
Proof.
  intros Hlen Hr. unfold cell_at. rewrite Hr.
  apply list_lookup_lookup_total_lt. apply resolve_lt in Hr.
  unfold columns in Hr. rewrite length_fmap in Hr. lia.
Qed.

Lemma select_Ok names df df' :
  select names df = Ok df' →
  ∃ idxs, Forall2 (λ nm i, resolve (columns df) nm = Ok i) names idxs
    ∧ columns df' = names
    ∧ rows df' = (λ r, (λ i, r !!! i) <$> idxs) <$> rows df.
Proof.
  unfold select. destruct (rmapM _ _) as [idxs|e] eqn:Hidx; simpl; [|done].
  intros [= <-]. exists idxs. apply rmapM_Ok in Hidx. split_and!; [done| |done].
  unfold columns at 1. simpl. clear -Hidx.
  induction Hidx as [|nm i names idxs H _ IH]; [done|].
  simpl. f_equal; [|done]. by apply schema_lookup_total.
Qed.


(** ** The assembler and cell 5 *)

Lemma VectorAssembler_transform_Ok empty va df df' :
  VectorAssembler_transform empty va df = Ok df' →
  ∃ idxs, (rmapM (va_resolve df) (va_inputCols va) = Ok idxs)
    ∧ (va_outputCol va ∉ columns df)
    ∧ schema df' = schema df ++ [(va_outputCol va, VectorType)]
    ∧ rows df' = (λ r, r ++ [CVec (concat ((λ i, cell_values (r !!! i)) <$> idxs))]) <$> rows df.
Proof.
  unfold VectorAssembler_transform.
  destruct (rmapM _ _) as [idxs|e] eqn:Hidx; simpl; [|done].
  case_bool_decide as Hout; [done|]. intros H. exists idxs.
  destruct idxs, empty; try done; by injection H as <-.
Qed.

(** What cell 5 leaves in [train_data]: the three key and label cells of
    every row of the table, and the assembled vector. *)
Lemma assemble_features_Ok empty tbl d :
  well_formed tbl → assemble_features empty tbl = Ok d →
  ∃ im it il idxs,
    resolve (columns tbl) "machineID" = Ok im
    ∧ resolve (columns tbl) "dt_truncated" = Ok it
    ∧ resolve (columns tbl) "label_e" = Ok il
    ∧ rmapM (va_resolve tbl) (input_features tbl) = Ok idxs
    ∧ columns d = ["machineID"; "dt_truncated"; "label_e"; "features"]
    ∧ rows d = (λ r, [r !!! im; r !!! it; r !!! il;
                      CVec (concat ((λ i, cell_values (r !!! i)) <$> idxs))]) <$> rows tbl.
Proof.
  intros Hwf. unfold assemble_features.
  destruct (VectorAssembler_transform _ _ _) as [a|e] eqn:Ha; simpl; [|done].
  apply VectorAssembler_transform_Ok in Ha as (idxs & Hidx & Hout & Hsch & Hrows).
  simpl in *. intros (sel & HF & Hcols & Hsel)%select_Ok.
  assert (Hca : columns a = columns tbl ++ ["features"]).
  { unfold columns. by rewrite Hsch, fmap_app. }
  rewrite Hca in HF.
  apply Forall2_cons_inv_l in HF as (im & sel1 & Him & HF & ->).
  apply Forall2_cons_inv_l in HF as (it & sel2 & Hit & HF & ->).
  apply Forall2_cons_inv_l in HF as (il & sel3 & Hil & HF & ->).
  apply Forall2_cons_inv_l in HF as (iv & sel4 & Hiv & HF & ->).
  apply Forall2_nil_inv_l in HF as ->.
  rewrite resolve_snoc_ne in Him, Hit, Hil by done.
  apply resolve_snoc_new in Hiv as ->; [|done].
  exists im, it, il, idxs. split_and!; try done.
  rewrite Hsel, Hrows, <- list_fmap_compose.
  apply Forall_fmap_ext_1. eapply List.Forall_impl; [|exact Hwf].
  intros r Hr. cbn beta. unfold compose. simpl.
  assert (Hlen : length (columns tbl) = length r).
  { unfold columns. by rewrite length_fmap. }
  apply resolve_lt in Him, Hit, Hil.
  rewrite !lookup_total_app_l by lia.
  rewrite Hlen, list_lookup_total_middle by done. done.
Qed.

(** ** The model selector (cell 6) *)

Lemma params_valid_select_model model_type : params_valid (select_model model_type) = true.
Proof. unfold select_model. by destruct (String.eqb _ _). Qed.

(** C3: every model-type token other than 'DecisionTree' (the empty
    string, unknown strings, 'GBTClassifier') selects the random forest
    with its default hyperparameters; the selector is total, and for every
    token whatsoever the classifier it builds passes the parameter checks,
    so no token raises. *)
Theorem select_model_falls_back_to_forest (model_type : string)
    (Hother : model_type ≠ "DecisionTree") :
  select_model model_type = default_forest
  ∧ ∀ token, params_valid (select_model token) = true.
Proof.
  split; [|apply params_valid_select_model].
  unfold select_model. destruct (String.eqb_spec model_type "DecisionTree"); done.
Qed.

Lemma select_model_falls_back_to_forest_witness :
  select_model "" = default_forest
  ∧ select_model "GBTClassifier" = default_forest
  ∧ select_model "decisiontree" = default_forest.
Proof.
  split_and!.
  - apply (select_model_falls_back_to_forest ""). done.
  - apply (select_model_falls_back_to_forest "GBTClassifier"). done.
  - apply (select_model_falls_back_to_forest "decisiontree"). done.
Defined.

(** C4: for a recognized token ('DecisionTree' or 'RandomForest') the
    classifier has max depth 15, max bins 32, one instance per leaf at
    least, minimum information gain 0.0 and Gini impurity; the forest has
    in addition 200 trees, the square-root feature subset strategy and
    subsampling rate 0.632, and the single tree has no forest parameters. *)
Theorem select_model_hyperparameters (model_type : string)
    (Hrec : recognized model_type) :
  let model := select_model model_type in
  maxDepth (tree_params model) = 15%Z
  ∧ maxBins (tree_params model) = 32%Z
  ∧ minInstancesPerNode (tree_params model) = 1%Z
  ∧ minInfoGain (tree_params model) = 0.0%Q
  ∧ impurity (tree_params model) = "gini"
  ∧ forest_params model =
      (if decide (model_type = "RandomForest")
       then Some {| numTrees := 200; featureSubsetStrategy := "sqrt";
                    subsamplingRate := 0.632 |}
       else None).
Proof. destruct Hrec as [-> | ->]; done. Qed.

Lemma select_model_hyperparameters_witness :
  forest_params (select_model "RandomForest") =
    Some {| numTrees := 200; featureSubsetStrategy := "sqrt"; subsamplingRate := 0.632 |}
  ∧ forest_params (select_model "DecisionTree") = None
  ∧ maxDepth (tree_params (select_model "DecisionTree")) = 15%Z.
Proof.
  split_and!.
  - apply (select_model_hyperparameters "RandomForest"). by right.
  - apply (select_model_hyperparameters "DecisionTree"). by left.
  - apply (select_model_hyperparameters "DecisionTree"). by left.
Defined.

(** ** The feature list (cells 4 and 5) *)




(** ** The run *)

Section NotebookProps.

Context (tie_le : relation cell) `{!RelDecision tie_le}.
Context {Model : Type}.
Context (train : Classifier → list LabeledPoint → result Model).
Context (predict : Model → DataFrame → result DataFrame).
Context (empty : EmptyInputCols).

Abbreviation run := (notebook tie_le train predict empty).
Abbreviation model_of params := (widgets_get params "model" model_type_default).

Lemma save_model_spec model_type (mp : PipelineModel) (s : State (Model := Model)) :
  save_model model_type mp s =
    ({| dbfs := <[model_path model_type := mp]> (dbfs s);
        trace := trace s ++ [Save (model_path model_type)] |}, Ok ()).
Proof.
  unfold save_model, MLWriter_save. simpl.
  destruct (dbfs s !! model_path model_type); [|done].
  by rewrite insert_delete_eq.
Qed.

#[local] Arguments Pipeline_fit : simpl never.

(** The run, stage by stage: where it can stop, and what has been logged
    and stored by then. *)
Lemma notebook_unfold params catalog (s : State (Model := Model)) :
  run params catalog s =
  match training empty params catalog with
  | Raise e => (s, Raise e)
  | Ok d =>
      let t1 := trace s ++ [Fit VectorIndexerFit d] in
      match VectorIndexer_fit featureIndexer_estimator d with
      | Raise e => ({| dbfs := dbfs s; trace := t1 |}, Raise e)
      | Ok fi =>
          let t2 := t1 ++ [Fit StringIndexerFit d] in
          match StringIndexer_fit tie_le labelIndexer_estimator d with
          | Raise e => ({| dbfs := dbfs s; trace := t2 |}, Raise e)
          | Ok li =>
              let t3 := t2 ++ [Fit PipelineFit d] in
              match Pipeline_fit train predict
                      (pipeline_cls_mthd li fi (select_model (model_of params))) d with
              | Raise e => ({| dbfs := dbfs s; trace := t3 |}, Raise e)
              | Ok mp =>
                  ({| dbfs := <[model_path (model_of params) := mp]> (dbfs s);
                      trace := t3 ++ [Save (model_path (model_of params))] |}, Ok mp)
              end
          end
      end
  end.
Proof.
  unfold notebook, training, mbind, NB_bind, result_bind, lift, emit.
  destruct (spark_table _ _) as [tbl|e]; [|by destruct s].
  destruct (assemble_features empty tbl) as [d|e]; [|by destruct s].
  simpl. destruct (VectorIndexer_fit _ d) as [fi|e]; [|done].
  destruct (StringIndexer_fit _ _ d) as [li|e]; [|done].
  destruct (Pipeline_fit train predict _ d) as [mp|e]; [|done].
  by rewrite save_model_spec.
Qed.

(** A run that returns a pipeline has fit both indexers and the pipeline
    on the one dataset [training], and saved the pipeline. *)
Lemma notebook_success params catalog (s s' : State (Model := Model)) mp :
  run params catalog s = (s', Ok mp) →
  ∃ d fi li,
    training empty params catalog = Ok d
    ∧ VectorIndexer_fit featureIndexer_estimator d = Ok fi
    ∧ StringIndexer_fit tie_le labelIndexer_estimator d = Ok li
    ∧ Pipeline_fit train predict
        (pipeline_cls_mthd li fi (select_model (model_of params))) d = Ok mp
    ∧ dbfs s' = <[model_path (model_of params) := mp]> (dbfs s)
    ∧ trace s' = trace s ++ [Fit VectorIndexerFit d; Fit StringIndexerFit d;
                             Fit PipelineFit d; Save (model_path (model_of params))].
Proof.
  rewrite notebook_unfold.
  destruct (training _ _ _) as [d|e]; [|done]. cbn zeta.
  destruct (VectorIndexer_fit _ d) as [fi|e] eqn:Hfi; [|done].
  destruct (StringIndexer_fit _ _ d) as [li|e] eqn:Hli; [|done].
  destruct (Pipeline_fit train predict _ d) as [mp'|e] eqn:Hp; [|done].
  intros [= <- <-]. exists d, fi, li. simpl. split_and!; try done.
  by rewrite <- !(assoc_L (++)).
Qed.

(** The fitted pipeline keeps the two indexers that were fit beforehand. *)
Lemma Pipeline_fit_stages li fi model d mp :
  Pipeline_fit train predict (pipeline_cls_mthd li fi model) d = Ok mp →
  ∃ cm, mp = [TStringIndexerModel li; TVectorIndexerModel fi; cm].
Proof.
  unfold pipeline_cls_mthd, Pipeline_fit. simpl. unfold mbind, result_bind. simpl.
  destruct (StringIndexerModel_transform li d) as [d1|e]; [|done].
  destruct (VectorIndexerModel_transform fi d1) as [d2|e]; [|done].
  destruct (Classifier_fit train model d2) as [cm|e]; [|done].
  intros [= <-]. by exists cm.
Qed.

Lemma columns_snoc sch rs name t :
  columns {| schema := sch ++ [(name, t)]; rows := rs |} = sch.*1 ++ [name].
Proof. unfold columns. simpl. by rewrite fmap_app. Qed.

Lemma StringIndexer_fit_cols si d m :
  StringIndexer_fit tie_le si d = Ok m →
  sim_inputCol m = si_inputCol si ∧ sim_outputCol m = si_outputCol si.
Proof.
  unfold StringIndexer_fit. destruct (resolve _ _); simpl; [|done]. by intros [= <-].
Qed.

Lemma VectorIndexer_fit_cols vi d m :
  VectorIndexer_fit vi d = Ok m →
  vim_inputCol m = vi_inputCol vi ∧ vim_outputCol m = vi_outputCol vi.
Proof.
  unfold VectorIndexer_fit. destruct (resolve _ _); simpl; [|done].
  destruct (vector_column _ _); [done|]. case_bool_decide; [|done]. by intros [= <-].
Qed.

Lemma select_model_cols model_type :
  labelCol (tree_params (select_model model_type)) = "indexedLabel"
  ∧ featuresCol (tree_params (select_model model_type)) = "indexedFeatures".
Proof. unfold select_model. by destruct (String.eqb _ _). Qed.

(** What the learner is given by [Pipeline.fit]: one instance per row of
    the dataset, in order, labelled with the index of the row's label. *)
Lemma classifier_sees_indexed_labels li fi model d mp :
  columns d = ["machineID"; "dt_truncated"; "label_e"; "features"] →
  Forall (λ r, length r = 4) (rows d) →
  sim_inputCol li = "label_e" → sim_outputCol li = "indexedLabel" →
  vim_inputCol fi = "features" → vim_outputCol fi = "indexedFeatures" →
  labelCol (tree_params model) = "indexedLabel" →
  featuresCol (tree_params model) = "indexedFeatures" →
  Pipeline_fit train predict (pipeline_cls_mthd li fi model) d = Ok mp →
  ∃ pts m,
    train model pts = Ok m
    ∧ mp = [TStringIndexerModel li; TVectorIndexerModel fi; TClassificationModel model m]
    ∧ Forall2 (λ rd pt, ∃ k, index_of (rd !!! 2) (labels li) = Some k
                             ∧ lp_label pt = Qc_of_Z (Z.of_nat k)) (rows d) pts.
Proof.
  intros Hcols Hlen Hli_in Hli_out Hfi_in Hfi_out Hlab Hfeat.
  unfold pipeline_cls_mthd, Pipeline_fit. simpl. unfold mbind, result_bind. simpl.
  destruct (StringIndexerModel_transform li d) as [d1|e] eqn:H1; [|done].
  destruct (VectorIndexerModel_transform fi d1) as [d2|e] eqn:H2; [|done].
  destruct (Classifier_fit train model d2) as [cm|e] eqn:H3; [|done].
  intros [= <-].
  unfold StringIndexerModel_transform in H1. rewrite Hli_in, Hli_out, Hcols in H1.
  simpl in H1.
  destruct (rmapM (index_label li) (cell_column 2 d)) as [ls|e] eqn:Hls; [|done].
  simpl in H1. injection H1 as <-.
  unfold VectorIndexerModel_transform in H2.
  rewrite Hfi_in, Hfi_out, columns_snoc in H2. fold (columns d) in H2. rewrite Hcols in H2.
  simpl in H2.
  match type of H2 with
  | context [rmapM ?f ?l] => destruct (rmapM f l) as [vs|e] eqn:Hvs; [|done]
  end.
  simpl in H2. injection H2 as <-.
  unfold Classifier_fit in H3. destruct (params_valid model); [|done].
  unfold training_instances in H3. rewrite Hlab, Hfeat, columns_snoc in H3.
  rewrite fmap_app in H3. fold (columns d) in H3. rewrite Hcols in H3. simpl in H3.
  match type of H3 with
  | context [rmapM ?f ?l] => destruct (rmapM f l) as [pts|e] eqn:Hpts; [|done]
  end.
  simpl in H3. destruct (train model pts) as [m|e] eqn:Hm; [|done].
  simpl in H3. injection H3 as <-.
  exists pts, m. split_and!; [done..|].
  apply rmapM_Ok in Hls, Hvs, Hpts.
  pose proof Hls as Lls. apply Forall2_length in Lls.
  pose proof Hvs as Lvs. apply Forall2_length in Lvs.
  pose proof Hpts as Lpts. apply Forall2_length in Lpts.
  unfold cell_column, vector_column in *. simpl in *.
  rewrite !length_fmap, ?length_zip_with in *.
  apply Forall2_same_length_lookup. split; [lia|].
  intros n rd pt Hrd Hpt.
  assert (is_Some (ls !! n)) as [l Hl].
  { apply lookup_lt_is_Some. apply lookup_lt_Some in Hrd. lia. }
  assert (is_Some (vs !! n)) as [v Hv].
  { apply lookup_lt_is_Some. apply lookup_lt_Some in Hrd. lia. }
  assert (index_label li (rd !!! 2) = Ok l) as Hidx.
  { eapply (Forall2_lookup_lr _ _ _ n _ _ Hls); [|done].
    by rewrite list_lookup_fmap, Hrd. }
  assert (labeled_point (((rd ++ [l]) ++ [CVec v]) !!! 4)
                        (((rd ++ [l]) ++ [CVec v]) !!! 5) = Ok pt) as Hlp.
  { eapply (Forall2_lookup_lr _ _ _ n _ _ Hpts); [|done].
    apply lookup_zip_with_Some. eexists _, _. split; [done|]. split; [|done].
    apply lookup_zip_with_Some. eauto. }
  assert (length rd = 4) as Hrd4.
  { rewrite list.Forall_forall in Hlen. apply Hlen. by eapply list_elem_of_lookup_2. }
  destruct rd as [|c0 [|c1 [|c2 [|c3 [|??]]]]]; try done. simpl in Hlp, Hidx.
  unfold index_label in Hidx. change (_ !!! 2) with c2.
  destruct (index_of c2 (labels li)) as [k|]; [|done]. injection Hidx as <-.
  exists k. split; [done|]. simpl in Hlp. by injection Hlp as <-.
Qed.

(** C5: a run that returns a pipeline has stored it under
    'dbfs:/storage/models/' + token + '.pqt', a path computed from the
    model token alone, replacing whatever was stored there and leaving the
    other paths alone; saving the same pipeline under the same token once
    more succeeds and leaves the store as it was after the first save. *)
Theorem model_saved_under_token_path params catalog (s s' : State (Model := Model)) mp
    (Hrun : run params catalog s = (s', Ok mp)) :
  let path := "dbfs:/storage/models/" +:+ model_of params +:+ ".pqt" in
  dbfs s' = <[path := mp]> (dbfs s)
  ∧ dbfs s' !! path = Some mp
  ∧ (∀ other, other ≠ path → dbfs s' !! other = dbfs s !! other)
  ∧ (save_model (model_of params) mp s').2 = Ok ()
  ∧ dbfs (save_model (model_of params) mp s').1 = dbfs s'.
Proof.
  apply notebook_success in Hrun as (d & fi & li & _ & _ & _ & _ & Hfs & _).
  fold (model_path (model_of params)). cbn zeta. rewrite !save_model_spec. simpl.
  rewrite Hfs. split_and!; [done| | |done|].
  - apply lookup_insert_eq.
  - intros other Hne. by rewrite lookup_insert_ne.
  - apply insert_insert_eq.
Qed.

(** Cell 5 keeps the key and label cells of every row as they are. *)
Lemma assemble_features_cells tbl d :
  well_formed tbl → assemble_features empty tbl = Ok d →
  Forall2 (λ r rd, ∀ c, c ∈ ["machineID"; "dt_truncated"; "label_e"] →
                        cell_at d rd c = cell_at tbl r c) (rows tbl) (rows d).
Proof.
  intros Hwf Hd.
  destruct (assemble_features_Ok _ _ _ Hwf Hd)
    as (im & it & il & idxs & Him & Hit & Hil & _ & Hcols & Hrows).
  rewrite Hrows. apply Forall2_fmap_r, Forall_Forall2_diag.
  eapply List.Forall_impl; [|exact Hwf]. intros r Hr c Hc.
  unfold cell_at at 1. rewrite Hcols.
  repeat (apply elem_of_cons in Hc as [->|Hc]); [| | |by apply elem_of_nil in Hc].
  - by rewrite (cell_at_resolved _ _ _ _ Hr Him).
  - by rewrite (cell_at_resolved _ _ _ _ Hr Hit).
  - by rewrite (cell_at_resolved _ _ _ _ Hr Hil).
Qed.

Lemma Forall2_elem_of_l {A B} (R : A → B → Prop) l k x :
  Forall2 R l k → x ∈ l → ∃ y, y ∈ k ∧ R x y.
Proof.
  intros HF [i Hi]%list_elem_of_lookup.
  destruct (Forall2_lookup_l _ _ _ _ _ HF Hi) as (y & Hy & HR).
  exists y. split; [by eapply list_elem_of_lookup_2|done].
Qed.

Lemma Forall2_elem_of_r {A B} (R : A → B → Prop) l k y :
  Forall2 R l k → y ∈ k → ∃ x, x ∈ l ∧ R x y.
Proof.
  intros HF [i Hi]%list_elem_of_lookup.
  destruct (Forall2_lookup_r _ _ _ _ _ HF Hi) as (x & Hx & HR).
  exists x. split; [by eapply list_elem_of_lookup_2|done].
Qed.

(** C2, as the notebook has it: no cutoff is applied.  A run that returns
    a pipeline has fit the two indexers and the pipeline on one and the
    same dataset, which holds one row for every row of the loaded table;
    so the rows used for fitting are all at or before a cutoff T exactly
    when the rows of the loaded table are. *)
Theorem training_pool_is_whole_table params catalog (s s' : State (Model := Model)) mp tbl
    (Htbl : spark_table catalog (widgets_get params "training_table" training_table) = Ok tbl)
    (Hwf : well_formed tbl)
    (Hrun : run params catalog s = (s', Ok mp)) :
  ∃ d, training empty params catalog = Ok d
    ∧ trace s' = trace s ++ [Fit VectorIndexerFit d; Fit StringIndexerFit d;
                             Fit PipelineFit d; Save (model_path (model_of params))]
    ∧ length (rows d) = length (rows tbl)
    ∧ ∀ T, up_to_cutoff T d ↔ up_to_cutoff T tbl.
Proof.
  apply notebook_success in Hrun as (d & fi & li & Hd & _ & _ & _ & _ & Htr).
  exists d. split_and!; [done..| |].
  - unfold training in Hd. rewrite Htbl in Hd. simpl in Hd.
    apply assemble_features_cells in Hd; [|done]. symmetry. by eapply Forall2_length.
  - unfold training in Hd. rewrite Htbl in Hd. simpl in Hd.
    pose proof (assemble_features_cells _ _ Hwf Hd) as HF.
    intros T. unfold up_to_cutoff, timestamp_of. split.
    + intros H r t Hr Ht. destruct (Forall2_elem_of_l _ _ _ _ HF Hr) as (rd & Hrd & Hc).
      apply (H rd t Hrd). rewrite Hc; [done|].
      apply list_elem_of_further, list_elem_of_here.
    + intros H rd t Hrd Ht. destruct (Forall2_elem_of_r _ _ _ _ HF Hrd) as (r & Hr & Hc).
      apply (H r t Hr). rewrite <- Hc; [done|].
      apply list_elem_of_further, list_elem_of_here.
Qed.

(** C1, as the notebook has it: no censoring is applied.  Every row of the
    loaded table reaches the fit with its label_e and dt_truncated
    unchanged, and the learner is given, for every row of the table and in
    the table's order, an instance labelled with the index of that row's
    label_e.  So the rows of the training pool inside the window before a
    cutoff T carry the non-failure label exactly when those of the loaded
    table already do. *)
Theorem training_labels_as_loaded params catalog (s s' : State (Model := Model)) mp tbl
    (Htbl : spark_table catalog (widgets_get params "training_table" training_table) = Ok tbl)
    (Hwf : well_formed tbl)
    (Hrun : run params catalog s = (s', Ok mp)) :
  ∃ d li il pts m,
    training empty params catalog = Ok d
    ∧ resolve (columns tbl) "label_e" = Ok il
    ∧ train (select_model (model_of params)) pts = Ok m
    ∧ TStringIndexerModel li ∈ mp
    ∧ TClassificationModel (select_model (model_of params)) m ∈ mp
    ∧ Forall2 (λ r pt, ∃ k, index_of (r !!! il) (labels li) = Some k
                            ∧ lp_label pt = Qc_of_Z (Z.of_nat k)) (rows tbl) pts
    ∧ Forall2 (λ r rd, cell_at d rd "label_e" = cell_at tbl r "label_e"
                       ∧ cell_at d rd "dt_truncated" = cell_at tbl r "dt_truncated")
              (rows tbl) (rows d)
    ∧ ∀ window T no_failure,
        censored window T no_failure d ↔ censored window T no_failure tbl.
Proof.
  apply notebook_success in Hrun as (d & fi & li & Hd & Hfi & Hli & Hp & _ & _).
  pose proof Hd as Htr. unfold training in Htr. rewrite Htbl in Htr. simpl in Htr.
  destruct (assemble_features_Ok _ _ _ Hwf Htr)
    as (im & it & il & idxs & _ & _ & Hil & _ & Hcols & Hrows).
  apply StringIndexer_fit_cols in Hli as [Hli1 Hli2].
  apply VectorIndexer_fit_cols in Hfi as [Hfi1 Hfi2].
  destruct (select_model_cols (model_of params)) as [Hm1 Hm2].
  apply classifier_sees_indexed_labels in Hp as (pts & m & Hm & -> & Hpts); try done.
  2:{ rewrite Hrows. apply Forall_fmap, Forall_true. done. }
  pose proof (assemble_features_cells _ _ Hwf Htr) as HF.
  exists d, li, il, pts, m. split_and!; [done..| | | | |].
  - apply list_elem_of_here.
  - do 2 apply list_elem_of_further. apply list_elem_of_here.
  - rewrite Hrows in Hpts. by apply Forall2_fmap_l in Hpts.
  - eapply Forall2_impl; [exact HF|]. intros r rd Hc.
    split; apply Hc; [do 2 apply list_elem_of_further|apply list_elem_of_further];
      apply list_elem_of_here.
  - intros window T nf. unfold censored, timestamp_of. split.
    + intros H r t l Hr Ht Hw Hl.
      destruct (Forall2_elem_of_l _ _ _ _ HF Hr) as (rd & Hrd & Hc).
      apply (H rd t l Hrd); [|exact Hw|].
      * rewrite Hc; [done|]. apply list_elem_of_further, list_elem_of_here.
      * rewrite Hc; [done|]. do 2 apply list_elem_of_further. apply list_elem_of_here.
    + intros H rd t l Hrd Ht Hw Hl.
      destruct (Forall2_elem_of_r _ _ _ _ HF Hrd) as (r & Hr & Hc).
      apply (H r t l Hr); [|exact Hw|].
      * rewrite <- Hc; [done|]. apply list_elem_of_further, list_elem_of_here.
      * rewrite <- Hc; [done|]. do 2 apply list_elem_of_further. apply list_elem_of_here.
Qed.

(** C9, as the notebook has it: the assembler's transform keeps every
    column of the table and appends the vector column, but the [select]
    that follows keeps machineID, dt_truncated, label_e and features only.
    In the dataset that flows on, these three columns have the values they
    had in the table; every other column of the table is gone. *)
Theorem assembled_dataset_keeps_key_columns tbl d
    (Hwf : well_formed tbl)
    (Hd : assemble_features empty tbl = Ok d) :
  (∃ a, VectorAssembler_transform empty
          {| va_inputCols := input_features tbl; va_outputCol := "features" |} tbl = Ok a
        ∧ columns a = columns tbl ++ ["features"]
        ∧ Forall2 (λ r ra, ∃ v, ra = r ++ [CVec v]) (rows tbl) (rows a))
  ∧ columns d = ["machineID"; "dt_truncated"; "label_e"; "features"]
  ∧ Forall2 (λ r rd, ∀ c, c ∈ ["machineID"; "dt_truncated"; "label_e"] →
                          cell_at d rd c = cell_at tbl r c) (rows tbl) (rows d).
Proof.
  split_and!.
  - unfold assemble_features in Hd.
    destruct (VectorAssembler_transform _ _ _) as [a|e] eqn:Ha; [|done].
    exists a. split; [done|].
    apply VectorAssembler_transform_Ok in Ha as (idxs & _ & _ & Hsch & Hrows).
    split.
    + unfold columns. by rewrite Hsch, fmap_app.
    + rewrite Hrows. apply Forall2_fmap_r, Forall_Forall2_diag, Forall_true.
      intros r. by eexists.
  - by destruct (assemble_features_Ok _ _ _ Hwf Hd) as (?&?&?&?&?&?&?&?&?&?).
  - by apply assemble_features_cells.
Qed.





(** ** The feature indexer *)

(** The vector of a row with numeric input cells, component by component. *)
Lemma concat_numeric_cells tbl r names idxs :
  length r = length (schema tbl) →
  Forall2 (λ name i, va_resolve tbl name = Ok i) names idxs →
  (∀ name, name ∈ names → ∃ x, cell_at tbl r name = Some (CNum x)) →
  Forall2 (λ name x, cell_at tbl r name = Some (CNum x)) names
          (concat ((λ i, cell_values (r !!! i)) <$> idxs)).
Proof.
  intros Hlen HF. induction HF as [|name i names idxs Hi _ IH]; intros Hnum; [constructor|].
  simpl. destruct (Hnum name) as [x Hx]; [left|].
  unfold va_resolve in Hi. destruct (resolve (columns tbl) name) as [i'|] eqn:Hr; [|done].
  simpl in Hi. destruct (assemblable _); [|done]. injection Hi as ->.
  rewrite (cell_at_resolved _ _ _ _ Hlen Hr) in Hx. injection Hx as Hx. rewrite Hx. simpl.
  constructor.
  - by rewrite (cell_at_resolved _ _ _ _ Hlen Hr), Hx.
  - apply IH. intros name' Hin. apply Hnum. by right.
Qed.


Lemma VectorIndexer_fit_Ok vi d m :
  VectorIndexer_fit vi d = Ok m →
  ∃ i, resolve (columns d) (vi_inputCol vi) = Ok i
    ∧ vector_column i d ≠ []
    ∧ Forall (λ v, length v = numFeatures m) (vector_column i d)
    ∧ ∀ j, j < numFeatures m →
        categoryMaps m !! j =
          categorical (maxCategories vi) (distinct_values (vector_column i d) j).
Proof.
  unfold VectorIndexer_fit. destruct (resolve _ _) as [i|e]; simpl; [|done].
  destruct (vector_column i d) as [|v0 vs] eqn:Hvs; [done|].
  case_bool_decide as Hall; [|done]. intros [= <-]. exists i. split; [done|].
  rewrite Hvs. simpl. split_and!.
  - done.
  - by constructor.
  - intros j Hj.
    by rewrite lookup_omap, lookup_map_seq_0, list_lookup_fmap, lookup_seq_lt by done.
Qed.

Lemma elem_of_category_order vals x : x ∈ category_order vals ↔ x ∈ vals.
Proof.
  unfold category_order. rewrite elem_of_app, merge_sort_Permutation, list_elem_of_filter.
  case_bool_decide as H0.
  - rewrite list_elem_of_singleton. split; [intros [->|[_ ?]]; done|].
    intros Hx. destruct (decide (x = 0%Qc)); [by left|by right].
  - rewrite elem_of_nil. split; [intros [[]|[_ ?]]; done|].
    intros Hx. right. split; [|done]. by intros ->.
Qed.

(** C8: the feature indexer of a run is fit with [maxCategories = 10] on
    the dataset [training].  Every vector of that dataset has as many
    components as the indexer has features.  A feature with at most 10
    distinct values in that dataset is categorical: it has a category
    index, which lists exactly its distinct values.  A feature with more
    than 10 distinct values has none and is passed through unchanged.  On a
    table whose input feature cells are all numbers the features are the
    input feature columns, one for one and in their order: the j-th
    component of a row's vector is the row's value under the j-th input
    column. *)
Theorem feature_index_threshold params catalog (s s' : State (Model := Model)) mp
    (Hrun : run params catalog s = (s', Ok mp)) :
  ∃ d fi i,
    training empty params catalog = Ok d
    ∧ TVectorIndexerModel fi ∈ mp
    ∧ resolve (columns d) "features" = Ok i
    ∧ Forall (λ v, length v = numFeatures fi) (vector_column i d)
    ∧ (∀ j, j < numFeatures fi →
        let vals := distinct_values (vector_column i d) j in
        (length vals ≤ 10 →
           ∃ cats, categoryMaps fi !! j = Some cats ∧ ∀ x, x ∈ cats ↔ x ∈ vals)
        ∧ (10 < length vals →
             categoryMaps fi !! j = None ∧ ∀ x, index_feature fi j x = Ok x))
    ∧ (∀ tbl,
        spark_table catalog (widgets_get params "training_table" training_table) = Ok tbl →
        well_formed tbl →
        (∀ r name, r ∈ rows tbl → name ∈ input_features tbl →
                   ∃ x, cell_at tbl r name = Some (CNum x)) →
        numFeatures fi = length (input_features tbl)
        ∧ Forall2 (λ r v, Forall2 (λ name x, cell_at tbl r name = Some (CNum x))
                                  (input_features tbl) v)
                  (rows tbl) (vector_column i d)).
Proof.
  apply notebook_success in Hrun as (d & fi & li & Hd & Hfi & _ & Hp & _ & _).
  apply Pipeline_fit_stages in Hp as [cm ->].
  apply VectorIndexer_fit_Ok in Hfi as (i & Hi & Hne & Hlens & Hcat).
  exists d, fi, i. split_and!; [done| |done|done| |].
  { apply list_elem_of_further, list_elem_of_here. }
  - intros j Hj vals. specialize (Hcat j Hj). simpl in Hcat. fold vals in Hcat.
    unfold categorical in Hcat. split; intros Hlen.
    + rewrite decide_True in Hcat by done. eexists. split; [exact Hcat|].
      apply elem_of_category_order.
    + rewrite decide_False in Hcat by lia. split; [done|].
      intros x. unfold index_feature. by rewrite Hcat.
  - intros tbl Htbl Hwf Hnum.
    unfold training in Hd. rewrite Htbl in Hd. simpl in Hd.
    destruct (assemble_features_Ok _ _ _ Hwf Hd)
      as (im & it & il & idxs & _ & _ & _ & Hidx & Hcols & Hrows).
    simpl in Hi. rewrite Hcols in Hi. injection Hi as <-.
    assert (Forall2 (λ r v, Forall2 (λ name x, cell_at tbl r name = Some (CNum x))
                                    (input_features tbl) v)
                    (rows tbl) (vector_column 3 d)) as HF.
    { unfold vector_column. rewrite Hrows, <- list_fmap_compose.
      apply Forall2_fmap_r, Forall_Forall2_diag, list.Forall_forall.
      intros r Hr. simpl. apply concat_numeric_cells.
      - unfold well_formed in Hwf. rewrite list.Forall_forall in Hwf. by apply Hwf.
      - by apply rmapM_Ok.
      - intros name Hname. by apply Hnum. }
    split; [|done].
    destruct (vector_column 3 d) as [|v0 vs] eqn:Hvs; [done|].
    apply Forall2_cons_inv_r in HF as (r0 & rs & Hr0 & _ & _).
    apply Forall_cons in Hlens as [<- _]. symmetry. by eapply Forall2_length.
Qed.

End NotebookProps.

(** ** The label indexer *)

Lemma StronglySorted_weaken {A} (R R' : relation A) l :
  (∀ a b, R a b → R' a b) → StronglySorted R l → StronglySorted R' l.
Proof.
  intros HR. induction 1 as [|x l _ IH Hx]; constructor; [done|].
  eapply List.Forall_impl; [|exact Hx]. intros b. apply HR.
Qed.

Lemma StronglySorted_lookup {A} (R : relation A) l i j a b :
  StronglySorted R l → l !! i = Some a → l !! j = Some b → i < j → R a b.
Proof.
  intros Hs. revert i j. induction Hs as [|x l _ IH Hx]; intros i j Hi Hj Hij; [done|].
  destruct j as [|j]; [lia|]. simpl in Hj. destruct i as [|i]; simpl in Hi.
  - injection Hi as <-. rewrite list.Forall_forall in Hx. apply Hx.
    by eapply list_elem_of_lookup_2.
  - apply (IH i j); [done..|lia].
Qed.

Section LabelIndexerProps.

Context (tie_le : relation cell) `{!RelDecision tie_le}.
Context `{!PartialOrder tie_le, !Total tie_le}.
Context {Model : Type}.
Context (train : Classifier → list LabeledPoint → result Model).
Context (predict : Model → DataFrame → result DataFrame).
Context (empty : EmptyInputCols).

Lemma frequency_Permutation col col' x :
  col ≡ₚ col' → frequency col x = frequency col' x.
Proof. intros H. unfold frequency. by rewrite H. Qed.

#[local] Instance before_trans col : Transitive (before tie_le col).
Proof.
  intros a b c [H1|[H1 T1]] [H2|[H2 T2]]; unfold before.
  - left; lia.
  - left; lia.
  - left; lia.
  - right. split; [lia|]. by transitivity b.
Qed.

#[local] Instance before_antisym col : AntiSymm (=) (before tie_le col).
Proof.
  intros a b [H1|[H1 T1]] [H2|[H2 T2]]; try lia.
  by apply (anti_symm tie_le).
Qed.

#[local] Instance before_total col : Total (before tie_le col).
Proof.
  intros a b. unfold before.
  destruct (lt_eq_lt_dec (frequency col a) (frequency col b)) as [[?|?]|?].
  - right. by left.
  - destruct (total tie_le a b); [left|right]; right; split; done.
  - left. by left.
Qed.

Lemma index_labels_sorted col :
  StronglySorted (before tie_le col) (index_labels tie_le col).
Proof. unfold index_labels. apply StronglySorted_merge_sort; apply _. Qed.

Lemma index_labels_distinct col : index_labels tie_le col ≡ₚ remove_dups col.
Proof. apply merge_sort_Permutation. Qed.

(** The index does not depend on the order of the rows. *)
Lemma index_labels_Permutation col col' :
  col' ≡ₚ col → index_labels tie_le col' = index_labels tie_le col.
Proof.
  intros Hp. apply (StronglySorted_unique (before tie_le col)).
  - eapply StronglySorted_weaken; [|apply index_labels_sorted].
    intros a b. unfold before. by rewrite !(frequency_Permutation col' col).
  - apply index_labels_sorted.
  - rewrite !index_labels_distinct. apply NoDup_Permutation; [apply NoDup_remove_dups..|].
    intros x. rewrite !elem_of_remove_dups. by rewrite Hp.
Qed.

Lemma index_of_elem_of (l : cell) (ls : list cell) :
  l ∈ ls → ∃ k, index_of l ls = Some k ∧ ls !! k = Some l.
Proof.
  intros Hin. unfold index_of.
  destruct (list_find_elem_of (λ y, y = l) ls l Hin eq_refl) as [[k y] Hk].
  rewrite Hk. exists k. split; [done|].
  apply list_find_Some in Hk as (Hy & -> & _). done.
Qed.

(** C7: the label indexer of a run is fit on every row of the loaded
    table.  Its labels are the distinct values of label_e, each once, so
    every label of the table has an index below the number of distinct
    labels; a label with a smaller index is at least as frequent as one
    with a larger index; and the index is a function of the table's labels
    that does not depend on the order of the rows. *)
Theorem label_index_by_frequency params catalog (s s' : State (Model := Model)) mp tbl
    (Htbl : spark_table catalog (widgets_get params "training_table" training_table) = Ok tbl)
    (Hwf : well_formed tbl)
    (Hrun : notebook tie_le train predict empty params catalog s = (s', Ok mp)) :
  ∃ li rest il,
    mp = TStringIndexerModel li :: rest
    ∧ resolve (columns tbl) "label_e" = Ok il
    ∧ let col := cell_column il tbl in
      labels li ≡ₚ remove_dups col
      ∧ (∀ l, l ∈ col →
           ∃ k, index_of l (labels li) = Some k ∧ k < length (remove_dups col))
      ∧ (∀ j k a b, labels li !! j = Some a → labels li !! k = Some b → j < k →
           frequency col b ≤ frequency col a)
      ∧ (∀ col', col' ≡ₚ col → index_labels tie_le col' = labels li).
Proof.
  apply notebook_success in Hrun as (d & fi & li & Hd & _ & Hli & Hp & _ & _).
  apply Pipeline_fit_stages in Hp as [cm ->].
  unfold training in Hd. rewrite Htbl in Hd. simpl in Hd.
  destruct (assemble_features_Ok _ _ _ Hwf Hd)
    as (im & it & il & idxs & _ & _ & Hil & _ & Hcols & Hrows).
  exists li, [TVectorIndexerModel fi; cm], il. split_and!; [done..|].
  unfold StringIndexer_fit in Hli. rewrite Hcols in Hli. simpl in Hli.
  injection Hli as <-. simpl.
  assert (cell_column 2 d = cell_column il tbl) as ->.
  { unfold cell_column. by rewrite Hrows, <- list_fmap_compose. }
  split_and!.
  - apply index_labels_distinct.
  - intros l Hl.
    assert (l ∈ index_labels tie_le (cell_column il tbl)) as Hin.
    { by rewrite index_labels_distinct, elem_of_remove_dups. }
    destruct (index_of_elem_of _ _ Hin) as (k & Hk & Hlk).
    exists k. split; [done|]. rewrite <- index_labels_distinct.
    by eapply lookup_lt_Some.
  - intros j k a b Ha Hb Hjk.
    destruct (StronglySorted_lookup _ _ _ _ _ _ (index_labels_sorted _) Ha Hb Hjk)
      as [?|[? _]]; lia.
  - intros col'. apply index_labels_Permutation.
Qed.

End LabelIndexerProps.

(** ** The notebook on the small tables *)

#[global] Instance code_le_po : PartialOrder code_le.
Proof.
  split; [split|].
  - intros a. unfold code_le. lia.
  - intros a b c. unfold code_le. lia.
  - intros a b Hab Hba. apply (inj encode). unfold code_le in *. lia.
Qed.

#[global] Instance code_le_total : Total code_le.
Proof. intros a b. unfold code_le. lia. Qed.

Lemma toy_table_well_formed : well_formed toy_table.
Proof. unfold well_formed. simpl. by repeat constructor. Qed.

Lemma toy_training_eq :
  training RejectEmptyInputCols ∅ (toy_catalog toy_table) = Ok toy_training.
Proof. vm_compute. reflexivity. Qed.

Lemma model_saved_under_token_path_witness :
  dbfs toy_run.1 =
    <["dbfs:/storage/models/" +:+ widgets_get ∅ "model" model_type_default +:+ ".pqt"
      := toy_pipeline]> (dbfs initial_state)
  ∧ dbfs (save_model (widgets_get ∅ "model" model_type_default) toy_pipeline toy_run.1).1
    = dbfs toy_run.1.
Proof.
  destruct (model_saved_under_token_path code_le toy_train toy_predict RejectEmptyInputCols
              ∅ (toy_catalog toy_table) initial_state toy_run.1 toy_pipeline)
    as (H1 & _ & _ & _ & H2).
  - vm_compute. reflexivity.
  - split; [exact H1|exact H2].
Defined.

Lemma training_pool_is_whole_table_witness :
  ∃ d, training RejectEmptyInputCols ∅ (toy_catalog toy_table) = Ok d
    ∧ length (rows d) = length (rows toy_table)
    ∧ ∀ T, up_to_cutoff T d ↔ up_to_cutoff T toy_table.
Proof.
  destruct (training_pool_is_whole_table code_le toy_train toy_predict RejectEmptyInputCols
              ∅ (toy_catalog toy_table) initial_state toy_run.1 toy_pipeline toy_table)
    as (d & Hd & _ & Hlen & Hcut).
  - vm_compute. reflexivity.
  - unfold well_formed. simpl. by repeat constructor.
  - vm_compute. reflexivity.
  - exists d. by split_and!.
Defined.

(** C2 fails as stated: with cutoff 86400 the row of the toy table stamped
    172800 is later than the cutoff, and it is in the dataset the pipeline
    is fit on. *)
Lemma training_pool_not_cut_off :
  training RejectEmptyInputCols ∅ (toy_catalog toy_table) = Ok toy_training
  ∧ Fit PipelineFit toy_training ∈ trace toy_run.1
  ∧ ¬ up_to_cutoff 86400 toy_training.
Proof.
  split_and!.
  - vm_compute. reflexivity.
  - vm_compute. do 2 apply list_elem_of_further. apply list_elem_of_here.
  - intros H.
    specialize (H [num 2; CTime 172800; num 0; CVec [Qc_of_Z 170]] 172800%Z).
    assert (172800 ≤ 86400)%Z; [|lia]. apply H.
    + unfold toy_training. simpl. do 2 apply list_elem_of_further. apply list_elem_of_here.
    + reflexivity.
Qed.

Lemma training_labels_as_loaded_witness :
  ∃ d li il pts m,
    training RejectEmptyInputCols ∅ (toy_catalog toy_table) = Ok d
    ∧ resolve (columns toy_table) "label_e" = Ok il
    ∧ toy_train (select_model (widgets_get ∅ "model" model_type_default)) pts = Ok m
    ∧ TStringIndexerModel li ∈ toy_pipeline
    ∧ Forall2 (λ r pt, ∃ k, index_of (r !!! il) (labels li) = Some k
                            ∧ lp_label pt = Qc_of_Z (Z.of_nat k)) (rows toy_table) pts
    ∧ (censored censoring_window 172800 (num 0) d
       ↔ censored censoring_window 172800 (num 0) toy_table).
Proof.
  destruct (training_labels_as_loaded code_le toy_train toy_predict RejectEmptyInputCols
              ∅ (toy_catalog toy_table) initial_state toy_run.1 toy_pipeline toy_table)
    as (d & li & il & pts & m & Hd & Hil & Hm & Hli & _ & Hpts & _ & Hc).
  - vm_compute. reflexivity.
  - unfold well_formed. simpl. by repeat constructor.
  - vm_compute. reflexivity.
  - exists d, li, il, pts, m. split_and!; [done..|apply Hc].
Defined.

(** C1 fails as stated: with cutoff 172800 all three rows of the toy table
    are inside the seven-day window and reach the fit with the labels 0, 1
    and 0 of the table; whichever class is taken as the non-failure class,
    one of them carries another label. *)
Lemma censoring_not_applied :
  training RejectEmptyInputCols ∅ (toy_catalog toy_table) = Ok toy_training
  ∧ Fit PipelineFit toy_training ∈ trace toy_run.1
  ∧ ∀ no_failure, ¬ censored censoring_window 172800 no_failure toy_training.
Proof.
  split_and!.
  - vm_compute. reflexivity.
  - vm_compute. do 2 apply list_elem_of_further. apply list_elem_of_here.
  - intros nf H.
    assert (num 0 = nf) as H0.
    { apply (H [num 1; CTime 0; num 0; CVec [Qc_of_Z 170]] 0%Z).
      - unfold toy_training. simpl. apply list_elem_of_here.
      - reflexivity.
      - unfold censoring_window. lia.
      - reflexivity. }
    assert (num 1 = nf) as H1.
    { apply (H [num 1; CTime 86400; num 1; CVec [Qc_of_Z 171]] 86400%Z).
      - unfold toy_training. simpl. apply list_elem_of_further, list_elem_of_here.
      - reflexivity.
      - unfold censoring_window. lia.
      - reflexivity. }
    rewrite <- H0 in H1. discriminate H1.
Qed.

Lemma assembled_dataset_keeps_key_columns_witness :
  columns toy_training = ["machineID"; "dt_truncated"; "label_e"; "features"]
  ∧ Forall2 (λ r rd, ∀ c, c ∈ ["machineID"; "dt_truncated"; "label_e"] →
                          cell_at toy_training rd c = cell_at toy_table r c)
            (rows toy_table) (rows toy_training).
Proof.
  destruct (assembled_dataset_keeps_key_columns RejectEmptyInputCols toy_table toy_training)
    as (_ & Hcols & Hrows).
  - unfold well_formed. simpl. by repeat constructor.
  - vm_compute. reflexivity.
  - by split.
Defined.

(** C9 fails as stated: the toy table has a column volt, and the dataset
    that flows on to the indexers and the fit has not. *)
Lemma original_columns_dropped :
  assemble_features RejectEmptyInputCols toy_table = Ok toy_training
  ∧ "volt" ∈ columns toy_table
  ∧ "volt" ∉ columns toy_training.
Proof.
  split_and!.
  - vm_compute. reflexivity.
  - vm_compute. do 2 apply list_elem_of_further. apply list_elem_of_here.
  - vm_compute. intros H. repeat (apply elem_of_cons in H as [H|H]; [discriminate H|]).
    by apply elem_of_nil in H.
Qed.



Lemma feature_index_threshold_witness :
  ∃ d fi i,
    training RejectEmptyInputCols ∅ (toy_catalog toy_table) = Ok d
    ∧ TVectorIndexerModel fi ∈ toy_pipeline
    ∧ resolve (columns d) "features" = Ok i
    ∧ Forall (λ v, length v = numFeatures fi) (vector_column i d)
    ∧ (∀ j, j < numFeatures fi →
        let vals := distinct_values (vector_column i d) j in
        (length vals ≤ 10 →
           ∃ cats, categoryMaps fi !! j = Some cats ∧ ∀ x, x ∈ cats ↔ x ∈ vals)
        ∧ (10 < length vals →
             categoryMaps fi !! j = None ∧ ∀ x, index_feature fi j x = Ok x))
    ∧ numFeatures fi = length (input_features toy_table).
Proof.
  destruct (feature_index_threshold code_le toy_train toy_predict RejectEmptyInputCols
              ∅ (toy_catalog toy_table) initial_state toy_run.1 toy_pipeline)
    as (d & fi & i & Hd & Hfi & Hi & Hlens & Hcat & Hcols).
  - vm_compute. reflexivity.
  - exists d, fi, i. split_and!; [done..|].
    apply (Hcols toy_table).
    + vm_compute. reflexivity.
    + unfold well_formed. simpl. by repeat constructor.
    + intros r name Hr Hname. change (input_features toy_table) with ["volt"] in Hname.
      apply list_elem_of_singleton in Hname as ->.
      unfold toy_table in Hr. simpl in Hr.
      repeat (apply elem_of_cons in Hr as [->|Hr]; [by eexists|]).
      by apply elem_of_nil in Hr.
Defined.

Lemma label_index_by_frequency_witness :
  ∃ li rest il,
    toy_pipeline = TStringIndexerModel li :: rest
    ∧ resolve (columns toy_table) "label_e" = Ok il
    ∧ labels li ≡ₚ remove_dups (cell_column il toy_table).
Proof.
  destruct (label_index_by_frequency code_le toy_train toy_predict RejectEmptyInputCols
              ∅ (toy_catalog toy_table) initial_state toy_run.1 toy_pipeline toy_table)
    as (li & rest & il & Hmp & Hil & Hperm & _).
  - vm_compute. reflexivity.
  - unfold well_formed. simpl. by repeat constructor.
  - vm_compute. reflexivity.
  - by exists li, rest, il.
Defined.

(** * Further properties of the notebook *)

(** ** Artifact paths *)

Lemma list_ascii_of_string_app s1 s2 :
  String.list_ascii_of_string (s1 +:+ s2)
  = String.list_ascii_of_string s1 ++ String.list_ascii_of_string s2.
Proof. induction s1 as [|a s1 IH]; simpl; [done|]. by rewrite IH. Qed.

Lemma string_app_inj_r s1 s2 x : s1 +:+ x = s2 +:+ x → s1 = s2.
Proof.
  intros H. apply (f_equal String.list_ascii_of_string) in H.
  rewrite !list_ascii_of_string_app in H. apply app_inv_tail in H.
  rewrite <- (String.string_of_list_ascii_of_string s1),
          <- (String.string_of_list_ascii_of_string s2). by rewrite H.
Qed.

Lemma model_path_inj t1 t2 : model_path t1 = model_path t2 → t1 = t2.
Proof.
  unfold model_path. intros H. apply (inj (String.append _)) in H.
  by apply string_app_inj_r in H.
Qed.

Lemma string_app_assoc s1 s2 s3 : (s1 +:+ s2) +:+ s3 = s1 +:+ s2 +:+ s3.
Proof.
  induction s1 as [|a s1 IH]; [reflexivity|].
  change (String a ((s1 +:+ s2) +:+ s3) = String a (s1 +:+ s2 +:+ s3)). by f_equal.
Qed.

(** The artifact of a token without slash is not inside the directory of
    another artifact. *)
Lemma model_path_not_inside t1 t2 rest :
  one_component t1 → model_path t1 ≠ model_path t2 +:+ "/" +:+ rest.
Proof.
  unfold one_component, model_path. intros Hno H.
  rewrite string_app_assoc in H. apply (inj (String.append _)) in H.
  apply (f_equal String.list_ascii_of_string) in H.
  rewrite !list_ascii_of_string_app in H.
  assert (slash ∈ String.list_ascii_of_string t1 ++ String.list_ascii_of_string ".pqt")
    as [Hin|Hin]%elem_of_app.
  { rewrite H. apply elem_of_app. right. apply elem_of_app. left.
    apply list_elem_of_here. }
  - done.
  - vm_compute in Hin.
    repeat (apply elem_of_cons in Hin as [Hin|Hin]; [discriminate Hin|]).
    by apply elem_of_nil in Hin.
Qed.

(** ** Indexes *)

Lemma index_of_lookup {A} `{EqDecision A} (x : A) (l : list A) k :
  index_of x l = Some k → l !! k = Some x.
Proof.
  unfold index_of. destruct (list_find _ l) as [[i y]|] eqn:Hf; [|done].
  simpl. intros [= <-]. by apply list_find_Some in Hf as (? & -> & _).
Qed.

Lemma index_of_is_Some {A} `{EqDecision A} (x : A) (l : list A) :
  x ∈ l → ∃ k, index_of x l = Some k.
Proof.
  intros Hin. unfold index_of.
  destruct (list_find_elem_of (λ y, y = x) l x Hin eq_refl) as [[k y] Hk].
  rewrite Hk. by exists k.
Qed.

Lemma index_of_NoDup {A} `{EqDecision A} (x : A) (l : list A) k :
  NoDup l → l !! k = Some x → index_of x l = Some k.
Proof.
  intros Hnd Hk.
  destruct (index_of_is_Some x l) as [k' Hk']; [by eapply list_elem_of_lookup_2|].
  rewrite Hk'. f_equal. apply index_of_lookup in Hk'.
  by eapply NoDup_lookup.
Qed.

Lemma category_order_Permutation vals : NoDup vals → category_order vals ≡ₚ vals.
Proof.
  intros Hnd. unfold category_order. rewrite merge_sort_Permutation.
  etrans; [|apply (filter_app_complement (λ x, x = 0%Qc) vals)].
  apply Permutation_app; [|done].
  case_bool_decide as H0.
  - apply NoDup_Permutation.
    + apply NoDup_singleton.
    + by apply list.NoDup_filter.
    + intros x. rewrite list_elem_of_singleton, list_elem_of_filter.
      split; [intros ->; by split | by intros [-> _]].
  - destruct (filter (λ x, x = 0%Qc) vals) as [|y l] eqn:Hf; [done|].
    assert (y ∈ filter (λ x, x = 0%Qc) vals) as [-> ?]%list_elem_of_filter
      by (rewrite Hf; left). done.
Qed.



Lemma resolve_unique cols name i j :
  resolve cols name = Ok j → cols !! i = Some name → i = j.
Proof.
  unfold resolve. destruct (positions name cols) as [|k [|??]] eqn:Hp; [done| |done].
  intros [= ->] Hi. apply elem_of_positions in Hi. rewrite Hp in Hi.
  by apply list_elem_of_singleton in Hi.
Qed.

Section FurtherProps.

Context (tie_le : relation cell) `{!RelDecision tie_le}.
Context {Model : Type}.
Context (train : Classifier → list LabeledPoint → result Model).
Context (predict : Model → DataFrame → result DataFrame).
Context (empty : EmptyInputCols).

Abbreviation run := (notebook tie_le train predict empty).
Abbreviation model_of params := (widgets_get params "model" model_type_default).

(** ** What a failing run leaves behind *)

(** X1: when cells 3 to 6 end in an error (the table cannot be loaded,
    cell 5 raises, or one of the three fits raises), the run ends with that
    error before cell 7 is reached: no save has been attempted, DBFS holds
    what it held before the run, and all that has happened that can be
    observed is at most three calls of [fit]. *)
Theorem failure_before_save_leaves_store params catalog (s : State (Model := Model)) e
    (Hfail : fitted_pipeline tie_le train predict empty params catalog = Raise e) :
  ∃ evs, run params catalog s = ({| dbfs := dbfs s; trace := trace s ++ evs |}, Raise e)
    ∧ Forall (λ ev, is_fit ev = true) evs
    ∧ length evs ≤ 3.
Proof.
  rewrite notebook_unfold. unfold fitted_pipeline, mbind, result_bind in Hfail.
  destruct (training _ _ _) as [d|e0].
  2:{ injection Hfail as ->. exists []. rewrite app_nil_r. destruct s.
      split_and!; [done|constructor|simpl; lia]. }
  cbn zeta.
  destruct (VectorIndexer_fit _ d) as [fi|e1].
  2:{ injection Hfail as ->. eexists. split; [done|].
      split; [by repeat constructor|simpl; lia]. }
  destruct (StringIndexer_fit _ _ d) as [li|e2].
  2:{ injection Hfail as ->. eexists. rewrite <- (assoc_L (++)).
      split; [done|]. split; [by repeat constructor|simpl; lia]. }
  destruct (Pipeline_fit train predict _ d) as [mp|e3]; [done|].
  injection Hfail as ->. eexists. rewrite <- !(assoc_L (++)).
  split; [done|]. split; [by repeat constructor|simpl; lia].
Qed.

(** X2: when the catalog has no table under the name of the
    training_table widget ('training_data' unless a parameter overrides
    it), the run raises an analysis error in cell 3 and nothing else
    happens. *)
Theorem missing_table_stops_the_run params catalog (s : State (Model := Model))
    (Hmiss : catalog !! widgets_get params "training_table" "training_data" = None) :
  ∃ msg, run params catalog s = (s, Raise (AnalysisException msg)).
Proof.
  rewrite notebook_unfold. unfold training, spark_table.
  change training_table with "training_data". rewrite Hmiss. simpl. by eexists.
Qed.

(** X10: a column that is not in the exclusion list and is neither numeric
    nor a vector (a string or a timestamp) is taken as an input feature and
    refused by the assembler: the run raises in cell 5, before any fit. *)
Theorem non_numeric_feature_column_stops_the_run params catalog (s : State (Model := Model))
    tbl i name t
    (Htbl : spark_table catalog (widgets_get params "training_table" training_table) = Ok tbl)
    (Hcol : schema tbl !! i = Some (name, t))
    (Hkeep : name ∉ remove_names)
    (Htype : assemblable t = false) :
  ∃ e, run params catalog s = (s, Raise e).
Proof.
  rewrite notebook_unfold. unfold training. rewrite Htbl. simpl.
  assert (is_ok (assemble_features empty tbl) = false) as Hno.
  { unfold assemble_features, VectorAssembler_transform. simpl.
    destruct (rmapM (va_resolve tbl) (input_features tbl)) as [idxs|e] eqn:Hidx; [|done].
    exfalso. apply rmapM_Ok in Hidx.
    assert (columns tbl !! i = Some name) as Hi.
    { unfold columns. by rewrite list_lookup_fmap, Hcol. }
    assert (name ∈ input_features tbl) as Hin.
    { apply list_elem_of_filter. split; [done|]. by eapply list_elem_of_lookup_2. }
    destruct (Forall2_elem_of_l _ _ _ _ Hidx Hin) as (j & _ & Hj).
    unfold va_resolve in Hj.
    destruct (resolve (columns tbl) name) as [j'|] eqn:Hr; [|done]. simpl in Hj.
    rewrite <- (resolve_unique _ _ _ _ Hr Hi) in Hj.
    rewrite (list_lookup_total_correct _ _ _ Hcol) in Hj. simpl in Hj.
    by rewrite Htype in Hj. }
  destruct (assemble_features empty tbl) as [d|e]; [done|]. by exists e.
Qed.

(** X11: a table that already has a column named features cannot be
    used: the assembler refuses to write its output column over it and the
    run raises in cell 5, before any fit. *)
Theorem features_column_stops_the_run params catalog (s : State (Model := Model)) tbl
    (Htbl : spark_table catalog (widgets_get params "training_table" training_table) = Ok tbl)
    (Hfeat : "features" ∈ columns tbl) :
  ∃ e, run params catalog s = (s, Raise e).
Proof.
  rewrite notebook_unfold. unfold training. rewrite Htbl. simpl.
  assert (is_ok (assemble_features empty tbl) = false) as Hno.
  { unfold assemble_features, VectorAssembler_transform. simpl.
    destruct (rmapM (va_resolve tbl) (input_features tbl)) as [idxs|e]; [|done].
    simpl. by rewrite bool_decide_eq_true_2. }
  destruct (assemble_features empty tbl) as [d|e]; [done|]. by exists e.
Qed.

(** ** The indexers inside the pipeline *)





(** X5: the label index is a bijection between positions and labels:
    no label occurs twice, the label at position k has index k, and the
    label with index k stands at position k (what [IndexToString] needs to
    turn a predicted index back into its label). *)
Theorem label_index_round_trip si d li
    (Hfit : StringIndexer_fit tie_le si d = Ok li) :
  NoDup (labels li)
  ∧ ∀ k l, labels li !! k = Some l ↔ index_of l (labels li) = Some k.
Proof.
  unfold StringIndexer_fit in Hfit. destruct (resolve _ _) as [i|]; simpl in Hfit; [|done].
  injection Hfit as <-. simpl.
  assert (NoDup (index_labels tie_le (cell_column i d))) as Hnd.
  { unfold index_labels. rewrite merge_sort_Permutation. apply NoDup_remove_dups. }
  split; [done|]. intros k l. split.
  - by apply index_of_NoDup.
  - apply index_of_lookup.
Qed.

(** X6: a category map of the fitted feature indexer belongs to a feature
    of the vector, lists no value twice and has at most 10 categories,
    which is within [maxBins = 32] of whichever classifier the selector
    builds ("Must be >= number of categories for any categorical
    feature"). *)
Theorem category_maps_fit_in_bins d fi
    (Hfit : VectorIndexer_fit featureIndexer_estimator d = Ok fi) :
  ∀ j cats, categoryMaps fi !! j = Some cats →
    j < numFeatures fi
    ∧ NoDup cats
    ∧ length cats ≤ 10
    ∧ ∀ model_type,
        (Z.of_nat (length cats) ≤ maxBins (tree_params (select_model model_type)))%Z.
Proof.
  unfold VectorIndexer_fit in Hfit. destruct (resolve _ _) as [i|]; simpl in Hfit; [|done].
  destruct (vector_column i d) as [|v0 vs] eqn:Hvs; [done|].
  case_bool_decide; [|done]. injection Hfit as <-. simpl.
  intros j cats. rewrite lookup_omap, lookup_map_seq_0, list_lookup_fmap.
  destruct (seq 0 (length v0) !! j) as [j'|] eqn:Hj; [|done]. simpl.
  apply lookup_seq in Hj as [-> Hj]. simpl.
  unfold categorical. case_decide as Hlen; [|done]. intros [= <-].
  assert (NoDup (distinct_values (v0 :: vs) j)) as Hnd by apply NoDup_remove_dups.
  pose proof (category_order_Permutation _ Hnd) as Hp.
  split_and!; [done| by rewrite Hp | rewrite Hp; lia |].
  intros model_type. rewrite Hp.
  assert (maxBins (tree_params (select_model model_type)) = 32%Z) as ->.
  { unfold select_model. by destruct (String.eqb _ _). }
  lia.
Qed.

(** X7: [Pipeline.fit] returns one transformer per stage and keeps every
    stage that is already a transformer as it is, at its position: fitted
    indexers put into a pipeline are not fit again. *)
Theorem Pipeline_fit_keeps_transformers stages d mp
    (Hfit : Pipeline_fit train predict stages d = Ok mp) :
  length mp = length stages
  ∧ ∀ i t, stages !! i = Some (TransformerStage t) → mp !! i = Some t.
Proof.
  revert d mp Hfit. induction stages as [|st rest IH]; intros d mp Hfit; simpl in Hfit.
  - by injection Hfit as <-.
  - unfold mbind, result_bind in Hfit.
    destruct (match st with EstimatorStage c => _ | TransformerStage t => _ end)
      as [t0|] eqn:Ht0; [|done].
    destruct (if existsb is_estimator rest then _ else _) as [d'|]; [|done].
    destruct (Pipeline_fit train predict rest d') as [ts|] eqn:Hts; [|done].
    injection Hfit as <-. destruct (IH _ _ Hts) as [Hlen Hkeep].
    split; [simpl; by rewrite Hlen|].
    intros [|i] t Hi; simpl in *.
    + injection Hi as ->. by injection Ht0 as ->.
    + by apply Hkeep.
Qed.

(** ** The assembled vector *)

(** X8: for a row whose input feature cells are all numbers, the vector
    cell 5 puts under features has one component per input feature column,
    and its j-th component is the row's value under the j-th column of
    [input_features]: vector positions and feature columns line up. *)
Theorem feature_vector_follows_columns tbl d n r
    (Hwf : well_formed tbl)
    (Hd : assemble_features empty tbl = Ok d)
    (Hr : rows tbl !! n = Some r)
    (Hnum : ∀ name, name ∈ input_features tbl → ∃ x, cell_at tbl r name = Some (CNum x)) :
  ∃ rd v,
    rows d !! n = Some rd
    ∧ cell_at d rd "features" = Some (CVec v)
    ∧ Forall2 (λ name x, cell_at tbl r name = Some (CNum x)) (input_features tbl) v.
Proof.
  destruct (assemble_features_Ok _ _ _ Hwf Hd)
    as (im & it & il & idxs & _ & _ & _ & Hidx & Hcols & Hrows).
  eexists _, _. split_and!.
  - rewrite Hrows, list_lookup_fmap, Hr. done.
  - unfold cell_at. rewrite Hcols. done.
  - apply concat_numeric_cells; [|by apply rmapM_Ok|done].
    unfold well_formed in Hwf. rewrite list.Forall_forall in Hwf. apply Hwf.
    by eapply list_elem_of_lookup_2.
Qed.

(** ** Artifacts of different models *)

(** X9: for model tokens that are one path component (no slash in them),
    different tokens have different artifact paths, and neither path lies
    inside the directory of the other; saving the pipeline of one model
    type then leaves what is stored for the other model type as it is. *)
Theorem models_do_not_overwrite_each_other t1 t2 (mp : PipelineModel)
    (s : State (Model := Model))
    (Hne : t1 ≠ t2)
    (H1 : one_component t1)
    (H2 : one_component t2) :
  model_path t1 ≠ model_path t2
  ∧ (∀ rest, model_path t1 ≠ model_path t2 +:+ "/" +:+ rest)
  ∧ (∀ rest, model_path t2 ≠ model_path t1 +:+ "/" +:+ rest)
  ∧ dbfs (save_model t2 mp s).1 !! model_path t1 = dbfs s !! model_path t1.
Proof.
  assert (model_path t1 ≠ model_path t2) as Hp by (intros ?%model_path_inj; done).
  split_and!; [done| | |].
  - intros rest. by apply model_path_not_inside.
  - intros rest. by apply model_path_not_inside.
  - rewrite save_model_spec. simpl. by rewrite lookup_insert_ne.
Qed.

End FurtherProps.

(** ** The further properties on the small tables *)

Lemma failure_before_save_leaves_store_witness :
  ∃ evs, failing_run
         = ({| dbfs := dbfs initial_state; trace := trace initial_state ++ evs |},
            Raise (SparkException "learner failed"))
    ∧ Forall (λ ev, is_fit ev = true) evs
    ∧ length evs ≤ 3.
Proof.
  apply (failure_before_save_leaves_store code_le failing_train toy_predict
           RejectEmptyInputCols ∅ (toy_catalog toy_table) initial_state
           (SparkException "learner failed")).
  vm_compute. reflexivity.
Defined.

Lemma missing_table_stops_the_run_witness :
  ∃ msg, notebook code_le toy_train toy_predict RejectEmptyInputCols ∅ ∅ initial_state
         = (initial_state, Raise (AnalysisException msg)).
Proof.
  apply (missing_table_stops_the_run code_le toy_train toy_predict RejectEmptyInputCols
           ∅ ∅ initial_state).
  reflexivity.
Defined.


Lemma label_index_round_trip_witness :
  ∃ li, StringIndexer_fit code_le labelIndexer_estimator toy_training = Ok li
    ∧ NoDup (labels li)
    ∧ (labels li !! 1 = Some (num 1) ↔ index_of (num 1) (labels li) = Some 1).
Proof.
  eexists. split; [vm_compute; reflexivity|].
  edestruct (label_index_round_trip code_le labelIndexer_estimator toy_training)
    as [Hnd Hrt].
  - vm_compute. reflexivity.
  - split; [exact Hnd|apply Hrt].
Defined.

Lemma category_maps_fit_in_bins_witness :
  ∃ fi cats, VectorIndexer_fit featureIndexer_estimator toy_training = Ok fi
    ∧ categoryMaps fi !! 0 = Some cats
    ∧ NoDup cats ∧ length cats ≤ 10.
Proof.
  destruct (VectorIndexer_fit featureIndexer_estimator toy_training) as [fi|e] eqn:Hfi;
    [|by vm_compute in Hfi].
  destruct (categoryMaps fi !! 0) as [cats|] eqn:Hc.
  2:{ exfalso. vm_compute in Hfi. injection Hfi as <-. by vm_compute in Hc. }
  exists fi, cats. split; [reflexivity|]. split; [exact Hc|].
  destruct (category_maps_fit_in_bins toy_training fi Hfi 0 cats Hc) as (_ & Hnd & Hlen & _).
  split; [exact Hnd|exact Hlen].
Defined.

Lemma Pipeline_fit_keeps_transformers_witness :
  length toy_pipeline = length (TransformerStage <$> toy_pipeline)
  ∧ ∀ i t, (TransformerStage <$> toy_pipeline) !! i = Some (TransformerStage t) →
           toy_pipeline !! i = Some t.
Proof.
  apply (Pipeline_fit_keeps_transformers toy_train toy_predict
           (TransformerStage <$> toy_pipeline) toy_training toy_pipeline).
  vm_compute. reflexivity.
Defined.

Lemma feature_vector_follows_columns_witness :
  ∃ rd v,
    rows toy_training !! 1 = Some rd
    ∧ cell_at toy_training rd "features" = Some (CVec v)
    ∧ Forall2 (λ name x,
                 cell_at toy_table [num 1; CTime 86400; num 171; CStr "comp1"; num 1] name
                 = Some (CNum x))
              (input_features toy_table) v.
Proof.
  apply (feature_vector_follows_columns RejectEmptyInputCols toy_table toy_training 1).
  - unfold well_formed. simpl. by repeat constructor.
  - vm_compute. reflexivity.
  - reflexivity.
  - intros name Hin. change (input_features toy_table) with ["volt"] in Hin.
    apply list_elem_of_singleton in Hin as ->. by eexists.
Defined.

Lemma models_do_not_overwrite_each_other_witness :
  model_path "DecisionTree" ≠ model_path "RandomForest"
  ∧ (∀ rest, model_path "DecisionTree" ≠ model_path "RandomForest" +:+ "/" +:+ rest)
  ∧ (∀ rest, model_path "RandomForest" ≠ model_path "DecisionTree" +:+ "/" +:+ rest)
  ∧ dbfs (save_model "RandomForest" toy_pipeline toy_run.1).1 !! model_path "DecisionTree"
    = dbfs toy_run.1 !! model_path "DecisionTree".
Proof.
  apply (models_do_not_overwrite_each_other "DecisionTree" "RandomForest").
  - done.
  - unfold one_component. vm_compute. intros H.
    repeat (apply elem_of_cons in H as [H|H]; [discriminate H|]).
    by apply elem_of_nil in H.
  - unfold one_component. vm_compute. intros H.
    repeat (apply elem_of_cons in H as [H|H]; [discriminate H|]).
    by apply elem_of_nil in H.
Defined.

Lemma non_numeric_feature_column_stops_the_run_witness :
  ∃ e, notebook code_le toy_train toy_predict AcceptEmptyInputCols ∅
         (toy_catalog notes_table) initial_state = (initial_state, Raise e).
Proof.
  apply (non_numeric_feature_column_stops_the_run code_le toy_train toy_predict
           AcceptEmptyInputCols ∅ (toy_catalog notes_table) initial_state
           notes_table 2 "notes" StringType).
  - vm_compute. reflexivity.
  - reflexivity.
  - vm_compute. intros H. repeat (apply elem_of_cons in H as [H|H]; [discriminate H|]).
    by apply elem_of_nil in H.
  - reflexivity.
Defined.

Lemma features_column_stops_the_run_witness :
  ∃ e, notebook code_le toy_train toy_predict AcceptEmptyInputCols ∅
         (toy_catalog features_table) initial_state = (initial_state, Raise e).
Proof.
  apply (features_column_stops_the_run code_le toy_train toy_predict
           AcceptEmptyInputCols ∅ (toy_catalog features_table) initial_state
           features_table).
  - vm_compute. reflexivity.
  - vm_compute. do 2 apply list_elem_of_further. apply list_elem_of_here.
Defined.
